(** * Dependency guessing (cmd/guess_deps.go)

    A shallow embedding of [GuessDeps], [findDeps], [compactDeps] and
    [guessPackageName], followed by the properties of the import-graph
    walk, the fallback tree scan and the compaction step.

    Go's [map[string]bool] is a [gmap string bool]; the in-place mutation
    of [soFar] is explicit state passing (the map is returned next to the
    error, because a failed call keeps what it registered before failing).
    The recursion of [findDeps] is bounded by a [fuel] argument; running
    out of it is the outcome [Diverge], which no Go value corresponds to. *)

From Stdlib Require Import Ascii String.
From stdpp Require Import gmap strings list fin_maps relations.

Set Warnings "-register-all".
Local Open Scope string_scope.
Local Open Scope nat_scope.
Local Open Scope list_scope.

(** ** Go's [strings] and [path/filepath] helpers used by the file *)

(** [cut_prefix p s] is [Some r] when [s = p ++ r]. *)
Fixpoint cut_prefix (p s : string) : option string :=
  match p, s with
  | EmptyString, _ => Some s
  | String a p', String c s' => if Ascii.eqb a c then cut_prefix p' s' else None
  | String _ _, EmptyString => None
  end.

(** [strings.HasPrefix(s, prefix)] *)
Definition HasPrefix (s prefix : string) : bool :=
  match cut_prefix prefix s with Some _ => true | None => false end.

(** [strings.TrimPrefix(s, prefix)]: [s] unchanged when it does not start
    with [prefix]. *)
Definition TrimPrefix (s prefix : string) : string :=
  match cut_prefix prefix s with Some r => r | None => s end.

Definition in_cutset (cutset : list ascii) (c : ascii) : bool :=
  existsb (Ascii.eqb c) cutset.

Fixpoint trim_left (cutset s : list ascii) : list ascii :=
  match s with
  | c :: s' => if in_cutset cutset c then trim_left cutset s' else s
  | [] => []
  end.

Definition trim_right (cutset s : list ascii) : list ascii :=
  rev (trim_left cutset (rev s)).

(** [strings.Trim(s, cutset)]: all leading and trailing characters of
    [cutset] removed. *)
Definition Trim (s cutset : string) : string :=
  let cs := list_ascii_of_string cutset in
  string_of_list_ascii (trim_right cs (trim_left cs (list_ascii_of_string s))).

(** [os.PathSeparator] *)
Definition PathSeparator : ascii := "/"%char.

(** The characters after the last separator of [s]. *)
Fixpoint last_element (s acc : list ascii) : list ascii :=
  match s with
  | [] => acc
  | c :: s' =>
    if Ascii.eqb c PathSeparator then last_element s' [] else last_element s' (acc ++ [c])
  end.

(** [filepath.Base(path)]: the last element of [path], trailing separators
    removed first; ["."] for the empty path and ["/"] for a path of
    separators only. *)
Definition Base (path : string) : string :=
  if String.eqb path "" then "."
  else
    let p := trim_right [PathSeparator] (list_ascii_of_string path) in
    match last_element p [] with
    | [] => String PathSeparator EmptyString
    | l => string_of_list_ascii l
    end.

(** ** Data model *)

(** Go's [error] values, as far as the file tells them apart: the type
    switch of [GuessDeps] singles out [*build.NoGoError]. *)
Inductive error :=
| NoGoError (dir : string)
| OtherError (msg : string).

Definition isNoGoError (e : error) : bool :=
  match e with NoGoError _ => true | OtherError _ => false end.

(** [build.Package], the fields the file reads. *)
Record Package := {
  ImportPath : string;
  Imports : list string;
  Goroot : bool
}.

(** [BuildCtxt] wraps [build.Context]. [Import path srcDir] and
    [ImportDir dir] are the two resolution methods (mode [0]); as in
    [go/build] they return a package record next to the error. *)
Record BuildCtxt := {
  GOPATH : string;
  Import : string → string → Package * option error;
  ImportDir : string → Package * option error
}.

(** The package classes of [findPkg]; the file names two of them. *)
Inductive ptype :=
| ptypeGoroot
| ptypeCgo
| ptypeOther (tag : nat).

Record pinfo := { PType : ptype }.

(** [os.FileInfo], the part the walk callback reads. *)
Record FileInfo := { IsDir : bool; IsLink : bool }.

(** The directory tree [filepath.Walk] traverses: every node carries the
    path the callback receives, and its entries in the order of the walk. *)
Inductive fsnode :=
| FsNode (path : string) (fi : FileInfo) (entries : list fsnode).

(** What the file takes from elsewhere: the working directory
    ([os.Getwd]), the other functions of package [cmd], and the file
    system: [fileTree base] is the tree that [filepath.Walk] finds under
    [base]. *)
Record Host := {
  Getwd : string + error;
  GetBuildContext : BuildCtxt + error;
  NormalizeName : string → string * string;
  findPkg : BuildCtxt → string → string → pinfo;
  excludeSubtree : string → FileInfo → bool;
  fileTree : string → fsnode
}.

(** The value a [findDeps] call ends with: [nil], an error, or no value
    within the fuel. *)
Inductive outcome :=
| Nil
| Err (e : error)
| Diverge.

(** Ghost record of one [findDeps] invocation: its arguments, the package
    [b.Import] resolved (if it got that far without error), the returned
    value and the recursive invocations it made, in order. *)
Inductive call :=
| Call (name vpath : string) (pkg : option Package) (res : outcome) (sub : list call).

Definition call_name (c : call) : string := let 'Call n _ _ _ _ := c in n.
Definition call_pkg (c : call) : option Package := let 'Call _ _ p _ _ := c in p.
Definition call_sub (c : call) : list call := let 'Call _ _ _ _ s := c in s.

(** All invocations of a call tree, in preorder. *)
Fixpoint nodes (c : call) : list call :=
  match c with
  | Call _ _ _ _ sub =>
    c :: (fix go (l : list call) : list call :=
            match l with
            | [] => []
            | x :: l' => nodes x ++ go l'
            end) sub
  end.


(** Go's [m[k]] on a [map[string]bool]: [false] for an absent key. *)
Definition has (m : gmap string bool) (k : string) : bool :=
  default false (m !! k).

(** ** The direct walk: [findDeps] *)

Section walk.
Context (h : Host).

(** The [for _, imp := range pkg.Imports] loop of [findDeps] (lines
    137-148); [rec soFar name] is the recursive call
    [findDeps(b, soFar, name, vpath)]. *)
Fixpoint rangeImports (rec : gmap string bool → string → gmap string bool * outcome * call)
    (vpath : string) (imports : list string) (soFar : gmap string bool)
    : gmap string bool * outcome * list call :=
  match imports with
  | [] => (soFar, Nil, [])
  | imp :: rest =>
    if negb (has soFar imp) then
      let '(soFar1, err, c1) := rec soFar (vpath +:+ "/vendor/" +:+ imp) in
      match err with
      | Nil =>
        let '(soFar', r, cs) := rangeImports rec vpath rest soFar1 in
        (soFar', r, c1 :: cs)
      | Diverge => (soFar1, Diverge, [c1])
      | Err _ =>
        let '(soFar2, err2, c2) := rec soFar1 imp in
        match err2 with
        | Nil =>
          let '(soFar', r, cs) := rangeImports rec vpath rest soFar2 in
          (soFar', r, c1 :: c2 :: cs)
        | _ => (soFar2, err2, [c1; c2])
        end
      end
    else rangeImports rec vpath rest soFar
  end.

(** The vendor-parent path in force after line 123-125. *)
Definition effective_vpath (vpath : string) (pkg : Package) : string :=
  if String.eqb vpath "" then ImportPath pkg else vpath.

(** Line 129: the resolved path with the root's vendor prefix removed. *)
Definition realName (vpath : string) (pkg : Package) : string :=
  TrimPrefix (ImportPath pkg) (vpath +:+ "/vendor/").

(** Lines 131-136: registration unless the name is the top level
    package's. *)
Definition register (vpath : string) (pkg : Package) (soFar : gmap string bool)
    : gmap string bool :=
  let lookupName := (NormalizeName h (realName vpath pkg)).1 in
  if negb (String.eqb vpath lookupName) then <[realName vpath pkg := true]> soFar
  else soFar.

(** [findDeps] (lines 103-150). Next to the map and the returned value it
    gives the ghost record of the invocation. *)
Fixpoint findDeps (fuel : nat) (b : BuildCtxt) (soFar : gmap string bool)
    (name vpath : string) {struct fuel} : gmap string bool * outcome * call :=
  match fuel with
  | 0 => (soFar, Diverge, Call name vpath None Diverge [])
  | S fuel =>
    match Getwd h with
    | inr err => (soFar, Err err, Call name vpath None (Err err) [])
    | inl cwd =>
      if String.eqb name "C" then (soFar, Nil, Call name vpath None Nil [])
      else
        let '(pkg, err) := Import b name cwd in
        match err with
        | Some err => (soFar, Err err, Call name vpath None (Err err) [])
        | None =>
          if Goroot pkg then (soFar, Nil, Call name vpath (Some pkg) Nil [])
          else
            let vpath' := effective_vpath vpath pkg in
            let soFar := register vpath' pkg soFar in
            let '(soFar', r, cs) :=
              rangeImports (λ s n, findDeps fuel b s n vpath') vpath' (Imports pkg) soFar in
            (soFar', r, Call name vpath (Some pkg) r cs)
        end
    end
  end.

End walk.

(** ** [filepath.Walk] *)

(** What a [WalkFunc] returns: [nil] or [filepath.SkipDir] (the callback of
    [GuessDeps] returns no other error). *)
Inductive walkSignal :=
| WalkNil
| SkipDir.

Section filepath.
Context {St : Type} (walkFn : string → FileInfo → St → St * walkSignal).

(** [filepath.walk]: the callback on the node first; [SkipDir] on a
    directory skips its entries, [SkipDir] on anything else ends the walk
    of the containing directory. *)
Fixpoint walk (t : fsnode) (st : St) : St * walkSignal :=
  match t with
  | FsNode path info entries =>
    let '(st, err) := walkFn path info st in
    match err with
    | SkipDir => if IsDir info then (st, WalkNil) else (st, SkipDir)
    | WalkNil =>
      if negb (IsDir info) then (st, WalkNil)
      else
        (fix each (es : list fsnode) (st : St) : St * walkSignal :=
           match es with
           | [] => (st, WalkNil)
           | e :: es' =>
             let '(st, err) := walk e st in
             match err with
             | WalkNil => each es' st
             | SkipDir =>
               let 'FsNode _ fileInfo _ := e in
               if negb (IsDir fileInfo) then (st, SkipDir) else each es' st
             end
           end) entries st
    end
  end.

(** The same loop over the entries of a directory, named. *)
Fixpoint walkEntries (es : list fsnode) (st : St) : St * walkSignal :=
  match es with
  | [] => (st, WalkNil)
  | e :: es' =>
    let '(st, err) := walk e st in
    match err with
    | WalkNil => walkEntries es' st
    | SkipDir =>
      let 'FsNode _ fileInfo _ := e in
      if negb (IsDir fileInfo) then (st, SkipDir) else walkEntries es' st
    end
  end.

End filepath.

(** ** The fallback scan and [GuessDeps] *)

(** Ghost record of what the fallback scan did, in order: the callback
    entered at a path, [ImportDir] called on a path, [findPkg] called on an
    import. *)
Inductive event :=
| EvWalkFn (path : string)
| EvImportDir (path : string)
| EvFindPkg (imp : string).

(** [cfg.Config], the two fields [GuessDeps] fills. [Imports] is filled by
    ranging over the map, so its order is unspecified: a set of names. *)
Record Config := {
  cfgName : string;
  cfgImports : gset string
}.

(** The two return values of [GuessDeps]: [(nil, err)] or [(config, nil)]. *)
Inductive result :=
| Interrupt (e : error)
| Returned (config : Config).

(** Ghost record of a run: the discovery set as it is at line 73 (before
    compaction), the call tree of the direct walk and, when the fallback
    scan ran, its events. *)
Record Trace := {
  discovered : gmap string bool;
  direct : option call;
  fallback : option (list event)
}.

Section guess.
Context (h : Host).

(** Lines 51-68: the loop over the imports of one scanned directory. *)
Fixpoint scanImports (b : BuildCtxt) (base name : string) (imports : list string)
    (deps : gmap string bool) (log : list event) : gmap string bool * list event :=
  match imports with
  | [] => (deps, log)
  | imp :: rest =>
    if HasPrefix imp name then scanImports b base name rest deps log
    else if String.eqb imp name then scanImports b base name rest deps log
    else
      let found := findPkg h b imp base in
      let log := log ++ [EvFindPkg imp] in
      match PType found with
      | ptypeGoroot | ptypeCgo => scanImports b base name rest deps log
      | _ => scanImports b base name rest (<[imp := true]> deps) log
      end
  end.

(** Lines 32-71: the callback given to [filepath.Walk]. *)
Definition scanDir (b : BuildCtxt) (base name : string) (path : string) (fi : FileInfo)
    (st : gmap string bool * list event) : gmap string bool * list event * walkSignal :=
  let '(deps, log) := st in
  let log := log ++ [EvWalkFn path] in
  if excludeSubtree h path fi then
    let top := Base path in
    if IsDir fi && (String.eqb top "vendor" || String.eqb top "testdata")
    then (deps, log, SkipDir)
    else (deps, log, WalkNil)
  else
    let '(pkg, err) := ImportDir b path in
    let log := log ++ [EvImportDir path] in
    match err with
    | Some _ => (deps, log, WalkNil)
    | None =>
      if Goroot pkg then (deps, log, WalkNil)
      else (scanImports b base name (Imports pkg) deps log, WalkNil)
    end.

(** [filepath.Walk(base, ...)] with that callback; the value [Walk]
    returns is dropped by [GuessDeps]. *)
Definition scanTree (b : BuildCtxt) (base name : string) (deps : gmap string bool)
    : gmap string bool * list event :=
  (walk (scanDir b base name) (fileTree h base) (deps, [])).1.

(** [compactDeps]: one entry per top level package. *)
Definition compactDeps (soFar : gmap string bool) : gmap string bool :=
  map_fold (λ k _ basePackages, <[(NormalizeName h k).1 := true]> basePackages) ∅ soFar.

(** [guessPackageName] *)
Definition guessPackageName (b : BuildCtxt) (base : string) : string :=
  match Getwd h with
  | inr _ => "main"
  | inl cwd =>
    let '(pkg, err) := Import b base cwd in
    match err with
    | Some _ =>
      if HasPrefix base (GOPATH b) then
        let p := TrimPrefix base (GOPATH b) in
        Trim p (String PathSeparator EmptyString)
      else ImportPath pkg
    | None => ImportPath pkg
    end
  end.

(** [GuessDeps]; [dirname] is the optional parameter of the same name
    (default ["."]). [None] when the direct walk does not return within
    the fuel. *)
Definition GuessDeps (fuel : nat) (dirname : option string) : option (result * Trace) :=
  match GetBuildContext h with
  | inr err => Some (Interrupt err, {| discovered := ∅; direct := None; fallback := None |})
  | inl buildContext =>
    let base := default "." dirname in
    let deps : gmap string bool := ∅ in
    let '(deps, err, c) := findDeps h fuel buildContext deps base "" in
    match err with
    | Diverge => None
    | _ =>
      let name := guessPackageName buildContext base in
      let '(deps, log) :=
        match err with
        | Err (NoGoError _) =>
          let '(deps, log) := scanTree buildContext base name deps in (deps, Some log)
        | _ => (deps, None)
        end in
      let found := deps in
      let deps := compactDeps deps in
      let deps := delete base deps in
      Some (Returned {| cfgName := name; cfgImports := dom deps |},
            {| discovered := found; direct := Some c; fallback := log |})
    end
  end.

End guess.

(** ** Notions the properties are stated with *)

(** The top level identity of an import path: the first component of
    [NormalizeName]. *)
Definition topLevel (h : Host) (k : string) : string := (NormalizeName h k).1.

(** [k] was registered by the direct walk: it is the de-vendored import
    path of a package that [b.Import] resolved without error from a name
    other than ["C"] and did not report as part of the standard library. *)
Definition walk_found (h : Host) (b : BuildCtxt) (k : string) : Prop :=
  ∃ cwd name vpath pkg,
    Getwd h = inl cwd ∧ name ≠ "C" ∧ Import b name cwd = (pkg, None)
    ∧ Goroot pkg = false ∧ k = realName vpath pkg.

(** [k] was added by the fallback scan: an import that [findPkg] classes
    neither as standard library nor as cgo. *)
Definition scan_found (h : Host) (b : BuildCtxt) (base : string) (k : string) : Prop :=
  PType (findPkg h b k base) ≠ ptypeGoroot ∧ PType (findPkg h b k base) ≠ ptypeCgo.

(** The guards of [findDeps] as seen on one invocation: an invocation on
    the name ["C"] resolves nothing and recurses into nothing, and an
    invocation whose package is in the standard library recurses into
    nothing. *)
Definition guarded (c : call) : Prop :=
  (call_name c = "C" → call_pkg c = None ∧ call_sub c = [])
  ∧ (∀ p, call_pkg c = Some p → Goroot p = true → call_sub c = []).


(** The skip-list test of lines 34-35: a directory whose base name is
    [vendor] or [testdata]. *)
Definition skipListed (path : string) (fi : FileInfo) : bool :=
  IsDir fi && (String.eqb (Base path) "vendor" || String.eqb (Base path) "testdata").




(** [imports_edge h b v n m]: an invocation of [findDeps] on the name [n]
    with vendor parent [v] ranges over an import [imp] for which [m] is
    the overlay name [v/vendor/imp] or the plain name [imp]. *)
Definition imports_edge (h : Host) (b : BuildCtxt) (v : string) (n m : string) : Prop :=
  ∃ cwd pkg imp,
    Getwd h = inl cwd ∧ n ≠ "C" ∧ Import b n cwd = (pkg, None) ∧ Goroot pkg = false
    ∧ imp ∈ Imports pkg ∧ (m = v +:+ "/vendor/" +:+ imp ∨ m = imp).

(** What one import can do to the state of the scan: nothing when it has
    the project name as a prefix; otherwise [findPkg] is called on it, and
    it is added unless it is classed as standard library or cgo. [P] is
    closed under these steps. *)
Definition scan_step_closed (h : Host) (b : BuildCtxt) (base name : string)
    (P : gmap string bool * list event → Prop) : Prop :=
  ∀ imp deps log,
    P (deps, log) → HasPrefix imp name = false → imp ≠ name →
    (PType (findPkg h b imp base) = ptypeGoroot ∨ PType (findPkg h b imp base) = ptypeCgo →
       P (deps, log ++ [EvFindPkg imp]))
    ∧ (PType (findPkg h b imp base) ≠ ptypeGoroot →
       PType (findPkg h b imp base) ≠ ptypeCgo →
       P (<[imp := true]> deps, log ++ [EvFindPkg imp])).

(** ** Sample hosts

    Concrete collaborators and small projects on which the theorems are
    instantiated. *)

Module Sample.

(** A [NormalizeName] that keeps the first [n] segments of a path. *)
Fixpoint segments (n : nat) (s : string) : string :=
  match s with
  | EmptyString => EmptyString
  | String c s' =>
    if Ascii.eqb c PathSeparator then
      match n with
      | 0 | 1 => EmptyString
      | S n' => String c (segments n' s')
      end
    else String c (segments n s')
  end.

(** [example.org/lib/sub] has the top level package [example.org/lib]. *)
Definition normalize (s : string) : string * string :=
  let root := segments 2 s in
  (root, Trim (TrimPrefix s root) (String PathSeparator EmptyString)).

Fixpoint assoc {A : Type} (table : list (string * A)) (k : string) : option A :=
  match table with
  | [] => None
  | (k', a) :: table' => if String.eqb k k' then Some a else assoc table' k
  end.

Definition pkg (path : string) (imports : list string) : Package * option error :=
  ({| ImportPath := path; Imports := imports; Goroot := false |}, None).

Definition std (path : string) : Package * option error :=
  ({| ImportPath := path; Imports := []; Goroot := true |}, None).

Definition nogo (path dir : string) : Package * option error :=
  ({| ImportPath := path; Imports := []; Goroot := false |}, Some (NoGoError dir)).

(** A resolver given by a table; a name that is not in the table is not
    found. *)
Definition resolve (table : list (string * (Package * option error))) (path : string)
    : Package * option error :=
  match assoc table path with
  | Some r => r
  | None => ({| ImportPath := path; Imports := []; Goroot := false |},
             Some (OtherError "cannot find package"))
  end.

Definition context (imports dirs : list (string * (Package * option error))) : BuildCtxt := {|
  GOPATH := "/go";
  Import := λ path _, resolve imports path;
  ImportDir := resolve dirs
|}.

(** Everything but directories and links, the directories [vendor] and
    [testdata], and names that start with an underscore. *)
Definition exclude (path : string) (fi : FileInfo) : bool :=
  negb (IsDir fi || IsLink fi)
  || String.eqb (Base path) "vendor" || String.eqb (Base path) "testdata"
  || HasPrefix (Base path) "_".

Definition classify (_ : BuildCtxt) (name _ : string) : pinfo :=
  if String.eqb name "C" then {| PType := ptypeCgo |}
  else if String.eqb name "fmt" || String.eqb name "os" then {| PType := ptypeGoroot |}
  else {| PType := ptypeOther 0 |}.

Definition dir (path : string) (entries : list fsnode) : fsnode :=
  FsNode path {| IsDir := true; IsLink := false |} entries.

Definition file (path : string) : fsnode :=
  FsNode path {| IsDir := false; IsLink := false |} [].

Definition host (b : BuildCtxt) (tree : fsnode) : Host := {|
  Getwd := inl "/go/src/example.org/proj";
  GetBuildContext := inl b;
  NormalizeName := normalize;
  findPkg := classify;
  excludeSubtree := exclude;
  fileTree := λ _, tree
|}.

(** A project with three packages of its own, a vendored library and a
    standard library import. *)
Definition b_proj : BuildCtxt := context
  [ (".", pkg "example.org/proj"
            ["fmt"; "example.org/proj/a"; "example.org/proj/b"; "example.org/lib/sub"]);
    ("fmt", std "fmt");
    ("example.org/proj/a", pkg "example.org/proj/a" ["example.org/proj/c"]);
    ("example.org/proj/b", pkg "example.org/proj/b" ["example.org/proj/c"]);
    ("example.org/proj/c", pkg "example.org/proj/c" ["fmt"]);
    ("example.org/proj/vendor/example.org/lib/sub",
       pkg "example.org/proj/vendor/example.org/lib/sub" ["C"; "example.org/lib"]);
    ("example.org/lib", pkg "example.org/lib" []) ]
  [].
Definition h_proj : Host := host b_proj (dir "." []).

(** A project that uses cgo and has a vendored package in a directory
    named [C]. *)
Definition b_cgo : BuildCtxt := context
  [ (".", pkg "example.org/proj" ["C"]);
    ("example.org/proj/vendor/C", pkg "example.org/proj/vendor/C" []) ]
  [].
Definition h_cgo : Host := host b_cgo (dir "." []).

(** The root has a syntax error. *)
Definition b_broken : BuildCtxt := context
  [ (".", ({| ImportPath := "example.org/proj"; Imports := []; Goroot := false |},
           Some (OtherError "syntax error"))) ]
  [].
Definition h_broken : Host := host b_broken (dir "." []).

(** The root resolves; its second import cannot be found. *)
Definition b_partial : BuildCtxt := context
  [ (".", pkg "example.org/proj" ["example.org/lib/sub"; "example.org/gone"]);
    ("example.org/lib/sub", pkg "example.org/lib/sub" []) ]
  [].
Definition h_partial : Host := host b_partial (dir "." []).

(** The root resolves; the directory of its import holds no Go file. *)
Definition tree_nested : fsnode :=
  dir "." [ file "main.go";
            dir "cmd" [ file "cmd/tool.go" ] ].
Definition b_nested : BuildCtxt := context
  [ (".", pkg "example.org/proj" ["example.org/tools"]);
    ("example.org/tools", nogo "example.org/tools" "/go/src/example.org/tools") ]
  [ (".", pkg "example.org/proj" ["example.org/tools"]);
    ("cmd", pkg "example.org/proj/cmd" ["fmt"; "example.org/dep/x"]) ].
Definition h_nested : Host := host b_nested tree_nested.

(** No Go file at the root; packages in [cmd], in [vendor] and in
    [testdata]. *)
Definition tree_scan : fsnode :=
  dir "." [ file "README";
            dir "cmd" [ file "cmd/main.go" ];
            dir "testdata" [ dir "testdata/fix" [ file "testdata/fix/f.go" ] ];
            dir "vendor" [ dir "vendor/hidden" [ file "vendor/hidden/h.go" ] ] ].
Definition b_scan : BuildCtxt := context
  [ (".", nogo "example.org/proj" "/go/src/example.org/proj") ]
  [ (".", nogo "example.org/proj" "/go/src/example.org/proj");
    ("cmd", pkg "example.org/proj/cmd"
              ["fmt"; "C"; "example.org/proj/util"; "example.org/projector/x";
               "example.org/lib/sub"]);
    ("testdata", nogo "example.org/proj/testdata" "/go/src/example.org/proj/testdata");
    ("testdata/fix", pkg "example.org/proj/testdata/fix" ["example.org/fixture"]);
    ("vendor", nogo "example.org/proj/vendor" "/go/src/example.org/proj/vendor");
    ("vendor/hidden", pkg "example.org/proj/vendor/hidden" ["example.org/secret"]) ].
Definition h_scan : Host := host b_scan tree_scan.

(** A project guessed to be [foo] whose only package imports
    [foobar/x]. *)
Definition b_foo : BuildCtxt := context
  [ (".", nogo "foo" "/go/src/foo") ]
  [ (".", nogo "foo" "/go/src/foo");
    ("pkg", pkg "foo/pkg" ["foobar/x"; "bar/y"]) ].
Definition h_foo : Host := host b_foo (dir "." [ dir "pkg" [ file "pkg/p.go" ] ]).

(** A directory outside [GOPATH] without Go files: the resolution fails
    and hands back a record whose import path is ["."]. *)
Definition b_outside : BuildCtxt := context
  [ (".", nogo "." "/tmp/work") ]
  [].
Definition h_outside : Host := {|
  Getwd := inl "/tmp/work";
  GetBuildContext := inl b_outside;
  NormalizeName := normalize;
  findPkg := classify;
  excludeSubtree := exclude;
  fileTree := λ _, dir "." []
|}.

(** A root that imports one library. *)
Definition b_small : BuildCtxt := context
  [ (".", pkg "example.org/proj" ["example.org/lib"]);
    ("example.org/lib", pkg "example.org/lib" []) ]
  [].
Definition h_small : Host := host b_small (dir "." []).

(** The configuration and the trace of a run, for runs that return
    one. *)
Definition config_of (run : option (result * Trace)) : Config :=
  match run with
  | Some (Returned config, _) => config
  | _ => {| cfgName := ""; cfgImports := ∅ |}
  end.

Definition trace_of (run : option (result * Trace)) : Trace :=
  match run with
  | Some (_, tr) => tr
  | None => {| discovered := ∅; direct := None; fallback := None |}
  end.

End Sample.

(** ** Notions for the properties of the scan and further sample hosts *)

(** The callback of the scan returns [SkipDir] at a node: a directory that
    [excludeSubtree] reports and that is named [vendor] or [testdata]
    (lines 33-37). *)
Definition skips (h : Host) (path : string) (fi : FileInfo) : bool :=
  excludeSubtree h path fi && skipListed path fi.

(** The paths at which [filepath.Walk] invokes the callback of the scan,
    in order: a node, then, when it is a directory the callback does not
    skip, its entries. *)
Fixpoint visited (h : Host) (t : fsnode) : list string :=
  match t with
  | FsNode path fi entries =>
    path :: (if IsDir fi && negb (skips h path fi) then flat_map (visited h) entries else [])
  end.

(** The paths of the callback invocations recorded in a log. *)
Definition walkPaths (log : list event) : list string :=
  omap (λ e, match e with EvWalkFn path => Some path | _ => None end) log.

(** The import passes the three tests of lines 53-67. *)
Definition kept (h : Host) (b : BuildCtxt) (base name imp : string) : bool :=
  negb (HasPrefix imp name) && negb (String.eqb imp name)
  && match PType (findPkg h b imp base) with
     | ptypeGoroot | ptypeCgo => false
     | ptypeOther _ => true
     end.

(** The imports one directory contributes: none when it is excluded, does
    not resolve or is in the standard library; the kept ones among the
    imports of its package otherwise. *)
Definition dirFinds (h : Host) (b : BuildCtxt) (base name path : string) (fi : FileInfo)
    : list string :=
  if excludeSubtree h path fi then []
  else
    match ImportDir b path with
    | (_, Some _) => []
    | (pkg, None) =>
      if Goroot pkg then [] else List.filter (kept h b base name) (Imports pkg)
    end.

(** The imports the directories of a tree contribute, in the order of the
    walk. *)
Fixpoint scanFinds (h : Host) (b : BuildCtxt) (base name : string) (t : fsnode)
    : list string :=
  match t with
  | FsNode path fi entries =>
    dirFinds h b base name path fi
    ++ (if IsDir fi && negb (skips h path fi)
        then flat_map (scanFinds h b base name) entries else [])
  end.

(** [deps[imp] = true] for every [imp] of a list. *)
Definition addAll (deps : gmap string bool) (imps : list string) : gmap string bool :=
  foldl (λ m imp, <[imp := true]> m) deps imps.


Module Sample2.

(** A project that imports the standard library and cgo only. *)
Definition b_std : BuildCtxt := Sample.context
  [ (".", Sample.pkg "example.org/proj" ["fmt"; "C"; "os"]);
    ("fmt", Sample.std "fmt");
    ("os", Sample.std "os") ]
  [].
Definition h_std : Host := Sample.host b_std (Sample.dir "." []).

(** The working directory cannot be determined. *)
Definition h_nocwd : Host := {|
  Getwd := inr (OtherError "getwd: no such file or directory");
  GetBuildContext := inl Sample.b_small;
  NormalizeName := Sample.normalize;
  findPkg := Sample.classify;
  excludeSubtree := Sample.exclude;
  fileTree := λ _, Sample.dir "." []
|}.

(** The base directory is a command below the top level of its
    project. *)
Definition b_tool : BuildCtxt := Sample.context
  [ (".", Sample.pkg "example.org/proj/cmd/tool" ["fmt"]);
    ("fmt", Sample.std "fmt") ]
  [].
Definition h_tool : Host := Sample.host b_tool (Sample.dir "." []).

(** No Go file at the root; a package in [_tools/gen], below a directory
    that [excludeSubtree] reports because of its underscore. *)
Definition tree_tools : fsnode :=
  Sample.dir "_tools" [ Sample.dir "_tools/gen" [ Sample.file "_tools/gen/g.go" ] ].
Definition b_tools : BuildCtxt := Sample.context
  [ (".", Sample.nogo "example.org/proj" "/go/src/example.org/proj") ]
  [ ("_tools", Sample.pkg "example.org/proj/_tools" ["example.org/never"]);
    ("_tools/gen", Sample.pkg "example.org/proj/_tools/gen" ["example.org/gen/lib"]) ].
Definition h_tools : Host := Sample.host b_tools (Sample.dir "." [ tree_tools ]).


End Sample2.
(** * Properties *)

(** ** String helpers *)

Lemma cut_prefix_app (p r : string) : cut_prefix p (p +:+ r) = Some r.
Proof.
  induction p as [|a p IH]; simpl; [done|].
  by rewrite Ascii.eqb_refl.
Qed.

Lemma cut_prefix_Some (p s r : string) : cut_prefix p s = Some r → s = p +:+ r.
Proof.
  revert s. induction p as [|a p IH]; intros s; simpl.
  - by intros [= ->].
  - destruct s as [|c s]; [done|].
    destruct (Ascii.eqb_spec a c) as [->|]; [|done].
    intros H. by rewrite (IH _ H).
Qed.

Lemma HasPrefix_app (p r : string) : HasPrefix (p +:+ r) p = true.
Proof. unfold HasPrefix. by rewrite cut_prefix_app. Qed.

(** [HasPrefix] is the plain string prefix test. *)
Lemma HasPrefix_iff (s p : string) : HasPrefix s p = true ↔ ∃ r, s = p +:+ r.
Proof.
  split.
  - unfold HasPrefix. destruct (cut_prefix p s) as [r|] eqn:Hcut; [|done].
    intros _. exists r. by apply cut_prefix_Some.
  - intros [r ->]. apply HasPrefix_app.
Qed.

Lemma TrimPrefix_app (p r : string) : TrimPrefix (p +:+ r) p = r.
Proof. unfold TrimPrefix. by rewrite cut_prefix_app. Qed.

Lemma append_assoc (s1 s2 s3 : string) : (s1 +:+ s2) +:+ s3 = s1 +:+ s2 +:+ s3.
Proof.
  induction s1 as [|c s1 IH]; [done|].
  change (String c ((s1 +:+ s2) +:+ s3) = String c (s1 +:+ s2 +:+ s3)). by rewrite IH.
Qed.

Lemma String_eqb_false (s t : string) : String.eqb s t = false ↔ s ≠ t.
Proof. apply String.eqb_neq. Qed.

Example Base_vendor : Base "pkg/vendor/" = "vendor".
Proof. reflexivity. Qed.

Example Base_root : Base "///" = "/".
Proof. reflexivity. Qed.

Example Base_empty : Base "" = ".".
Proof. reflexivity. Qed.

Example Trim_both_ends : Trim "/src/example.org/proj//" "/" = "src/example.org/proj".
Proof. reflexivity. Qed.

Example TrimPrefix_absent : TrimPrefix "example.org/lib" "example.org/proj/vendor/" = "example.org/lib".
Proof. reflexivity. Qed.

(** ** Compaction *)

Section compaction.
Context (h : Host).

Lemma compactDeps_lookup (soFar : gmap string bool) (base : string) :
  compactDeps h soFar !! base = Some true ↔ ∃ k, k ∈ dom soFar ∧ topLevel h k = base.
Proof.
  unfold compactDeps.
  apply (map_fold_weak_ind (λ r m,
    r !! base = Some true ↔ ∃ k, k ∈ dom m ∧ topLevel h k = base)).
  - rewrite lookup_empty, dom_empty_L. split; [done|]. intros (k & Hk & _). set_solver.
  - intros k x m r Hfresh IH. rewrite dom_insert_L.
    destruct (decide ((NormalizeName h k).1 = base)) as [Heq|Hne].
    + rewrite Heq, lookup_insert_eq. split; [|done].
      intros _. exists k. split; [|done].
      apply elem_of_union. left. by apply elem_of_singleton.
    + rewrite lookup_insert_ne by done. rewrite IH. split.
      * intros (k' & Hk' & Heq). exists k'. split; [|done].
        apply elem_of_union. by right.
      * intros (k' & Hk' & Heq). exists k'. split; [|done].
        apply elem_of_union in Hk' as [Hk'|Hk']; [|done].
        apply elem_of_singleton in Hk'. subst k'. done.
Qed.

Lemma compactDeps_values (soFar : gmap string bool) (base : string) (v : bool) :
  compactDeps h soFar !! base = Some v → v = true.
Proof.
  unfold compactDeps. revert v.
  apply (map_fold_weak_ind (λ r m, ∀ v, r !! base = Some v → v = true)).
  - intros v. by rewrite lookup_empty.
  - intros k x m r _ IH v.
    destruct (decide ((NormalizeName h k).1 = base)) as [Heq|Hne].
    + rewrite Heq, lookup_insert_eq. congruence.
    + rewrite lookup_insert_ne by done. apply IH.
Qed.

Lemma compactDeps_image (soFar : gmap string bool) :
  compactDeps h soFar =
  gset_to_gmap true (set_map (D := gset string) (topLevel h) (dom soFar)).
Proof.
  apply map_eq. intros base.
  destruct (compactDeps h soFar !! base) as [v|] eqn:Hl.
  - pose proof (compactDeps_values _ _ _ Hl) as ->.
    symmetry. apply lookup_gset_to_gmap_Some. split; [|done].
    apply compactDeps_lookup in Hl as (k & Hk & Heq).
    apply elem_of_map. eauto.
  - symmetry. apply lookup_gset_to_gmap_None. intros Hin.
    apply elem_of_map in Hin as (k & Heq & Hk).
    assert (compactDeps h soFar !! base = Some true) as Hs
      by (apply compactDeps_lookup; eauto).
    congruence.
Qed.

Lemma compactDeps_dom (soFar : gmap string bool) :
  dom (compactDeps h soFar) = set_map (D := gset string) (topLevel h) (dom soFar).
Proof. rewrite compactDeps_image. apply dom_gset_to_gmap. Qed.

End compaction.

(** C4. [compactDeps] of a discovery set is exactly the set of top level
    identities of its entries (every value [true]); in particular two
    entries with the same top level identity, such as a package and one of
    its sub-packages, collapse into the single entry of that identity. *)
Theorem compactDeps_exact (h : Host) (soFar : gmap string bool) :
  compactDeps h soFar =
    gset_to_gmap true (set_map (D := gset string) (topLevel h) (dom soFar))
  ∧ ∀ lib sub : string,
      topLevel h lib = lib → topLevel h sub = lib →
      compactDeps h (<[sub := true]> (<[lib := true]> ∅)) = {[ lib := true ]}.
Proof.
  split; [apply compactDeps_image|].
  intros lib sub Hlib Hsub. rewrite compactDeps_image.
  rewrite !dom_insert_L, dom_empty_L.
  rewrite !set_map_union_L, set_map_empty, !set_map_singleton_L.
  rewrite Hlib, Hsub.
  rewrite (right_id_L ∅ (∪)), (idemp_L (∪)).
  apply map_eq. intros k. rewrite lookup_gset_to_gmap.
  destruct (decide (k = lib)) as [->|Hne].
  - rewrite lookup_singleton_eq. rewrite option_guard_True by set_solver. done.
  - rewrite lookup_singleton_ne by done. rewrite option_guard_False by set_solver. done.
Qed.

(** ** The project name *)

Section name.
Context (h : Host) (b : BuildCtxt).

(** The working directory cannot be determined: the placeholder. *)
Lemma guessPackageName_no_cwd (base : string) (e : error) :
  Getwd h = inr e → guessPackageName h b base = "main".
Proof. unfold guessPackageName. by intros ->. Qed.

(** The root resolves: its canonical import path. *)
Lemma guessPackageName_resolved (base cwd : string) (pkg : Package) :
  Getwd h = inl cwd → Import b base cwd = (pkg, None) →
  guessPackageName h b base = ImportPath pkg.
Proof. unfold guessPackageName. by intros -> ->. Qed.

(** The root does not resolve but starts with [GOPATH]: the rest of the
    path without its leading and trailing separators. *)
Lemma guessPackageName_gopath (base cwd : string) (pkg : Package) (e : error) :
  Getwd h = inl cwd → Import b base cwd = (pkg, Some e) →
  HasPrefix base (GOPATH b) = true →
  guessPackageName h b base =
    Trim (TrimPrefix base (GOPATH b)) (String PathSeparator EmptyString).
Proof. unfold guessPackageName. by intros -> -> ->. Qed.

(** The root does not resolve and does not start with [GOPATH]: the
    import path of the record the failed resolution handed back. *)
Lemma guessPackageName_unresolved (base cwd : string) (pkg : Package) (e : error) :
  Getwd h = inl cwd → Import b base cwd = (pkg, Some e) →
  HasPrefix base (GOPATH b) = false →
  guessPackageName h b base = ImportPath pkg.
Proof. unfold guessPackageName. by intros -> -> ->. Qed.

(** A root below [GOPATH]: the separator that follows the prefix goes
    as well. *)
Example guessPackageName_below_gopath :
  Trim (TrimPrefix "/go/src/example.org/proj/" "/go") (String PathSeparator EmptyString)
  = "src/example.org/proj".
Proof. reflexivity. Qed.

End name.

(** ** The walk over the directory tree *)

Lemma fsnode_forall_ind (P : fsnode → Prop) :
  (∀ path fi entries, Forall P entries → P (FsNode path fi entries)) →
  ∀ t, P t.
Proof.
  intros Hnode. fix rec 1. intros [path fi entries]. apply Hnode.
  induction entries as [|e es IHes]; constructor; [apply rec|apply IHes].
Qed.

Section walk_facts.
Context {St : Type} (walkFn : string → FileInfo → St → St * walkSignal).

Lemma walk_unfold (path : string) (info : FileInfo) (entries : list fsnode) (st : St) :
  walk walkFn (FsNode path info entries) st =
  let '(st1, err) := walkFn path info st in
  match err with
  | SkipDir => if IsDir info then (st1, WalkNil) else (st1, SkipDir)
  | WalkNil =>
    if negb (IsDir info) then (st1, WalkNil) else walkEntries walkFn entries st1
  end.
Proof.
  simpl. destruct (walkFn path info st) as [st1 [|]]; [|done].
  destruct (negb (IsDir info)); [done|].
  clear st. revert st1. induction entries as [|e es IHes]; intros st; [done|].
  simpl. destruct (walk walkFn e st) as [st2 [|]].
  - apply IHes.
  - destruct e as [p fi' es']. destruct (negb (IsDir fi')); [done|]. apply IHes.
Qed.

(** A property of the state kept by every callback invocation is kept
    by the whole walk. *)
Lemma walk_preserves (P : St → Prop) :
  (∀ path fi st, P st → P (walkFn path fi st).1) →
  ∀ t st, P st → P (walk walkFn t st).1.
Proof.
  intros Hfn t. induction t as [path fi entries IH] using fsnode_forall_ind.
  intros st Hst. rewrite walk_unfold.
  pose proof (Hfn path fi st Hst) as H1.
  destruct (walkFn path fi st) as [st1 [|]]; simpl in H1.
  - destruct (negb (IsDir fi)); [done|].
    clear Hst. revert st1 H1.
    induction IH as [|e es He Hes IHes]; intros st1 H1; [done|].
    simpl. pose proof (He st1 H1) as H2.
    destruct (walk walkFn e st1) as [st2 [|]]; simpl in H2.
    + by apply IHes.
    + destruct e as [p fi' es']. destruct (negb (IsDir fi')); [done|]. by apply IHes.
  - by destruct (IsDir fi).
Qed.

End walk_facts.

(** ** The fallback scan *)

Section scan.
Context (h : Host) (b : BuildCtxt) (base name : string).

Lemma scanImports_state (P : gmap string bool * list event → Prop) (imports : list string) :
  scan_step_closed h b base name P →
  ∀ deps log, P (deps, log) → P (scanImports h b base name imports deps log).
Proof.
  intros Hstep. induction imports as [|imp rest IH]; intros deps log Hst; [done|].
  simpl. destruct (HasPrefix imp name) eqn:Hpre; [by apply IH|].
  destruct (String.eqb_spec imp name) as [Heq|Hne]; [by apply IH|].
  destruct (Hstep imp deps log Hst Hpre Hne) as [Hskip Hadd].
  destruct (PType (findPkg h b imp base)) eqn:Hty; apply IH.
  - apply Hskip. by left.
  - apply Hskip. by right.
  - by apply Hadd.
Qed.

Lemma scanDir_state (P : gmap string bool * list event → Prop) :
  (∀ deps log path, P (deps, log) → P (deps, log ++ [EvWalkFn path])) →
  (∀ deps log path, P (deps, log) → P (deps, log ++ [EvImportDir path])) →
  scan_step_closed h b base name P →
  ∀ path fi st, P st → P (scanDir h b base name path fi st).1.
Proof.
  intros Hwalk Hdir Hstep path fi [deps log] Hst. unfold scanDir.
  specialize (Hwalk deps log path Hst).
  destruct (excludeSubtree h path fi).
  { by destruct (IsDir fi && _). }
  specialize (Hdir _ _ path Hwalk).
  destruct (ImportDir b path) as [pkg [e|]]; [done|].
  destruct (Goroot pkg); [done|]. simpl.
  by apply scanImports_state.
Qed.

(** A property of the state of the scan kept by every step of the
    callback holds after the scan. *)
Lemma scanTree_state (P : gmap string bool * list event → Prop) :
  (∀ deps log path, P (deps, log) → P (deps, log ++ [EvWalkFn path])) →
  (∀ deps log path, P (deps, log) → P (deps, log ++ [EvImportDir path])) →
  scan_step_closed h b base name P →
  ∀ deps, P (deps, []) → P (scanTree h b base name deps).
Proof.
  intros Hwalk Hdir Hstep deps Hst. unfold scanTree.
  apply (walk_preserves (scanDir h b base name) P); [|done].
  intros path fi st. by apply scanDir_state.
Qed.

(** The same for a property of the discovery set alone. *)
Lemma scanTree_preserves (P : gmap string bool → Prop) :
  (∀ imp deps,
     P deps → HasPrefix imp name = false → imp ≠ name →
     PType (findPkg h b imp base) ≠ ptypeGoroot →
     PType (findPkg h b imp base) ≠ ptypeCgo →
     P (<[imp := true]> deps)) →
  ∀ deps, P deps → P (scanTree h b base name deps).1.
Proof.
  intros Hstep deps Hdeps.
  apply (scanTree_state (λ st, P st.1)); try done.
  intros imp deps' log Hst Hpre Hne. split; [done|]. by apply Hstep.
Qed.

End scan.

(** C7. When the root does not resolve and does not start with [GOPATH],
    [guessPackageName] returns the import path of the record that the
    failed resolution handed back, whatever it is, and not the placeholder
    ["main"] its documentation announces. *)
Theorem guessPackageName_falls_through (h : Host) (b : BuildCtxt)
    (base cwd : string) (pkg : Package) (e : error) :
  Getwd h = inl cwd → Import b base cwd = (pkg, Some e) →
  HasPrefix base (GOPATH b) = false →
  guessPackageName h b base = ImportPath pkg.
Proof. apply guessPackageName_unresolved. Qed.

(** C10. During the fallback scan an import that has the project name as
    a plain string prefix is skipped: [findPkg] is not called on it and
    its entry in the discovery set is what it was before the scan. No
    path-segment boundary is asked for, so with the name [foo] the import
    [foobar/x] is skipped as well. *)
Theorem scan_skips_name_prefix (h : Host) (b : BuildCtxt) (base name : string)
    (deps : gmap string bool) (imp : string) :
  HasPrefix imp name = true →
  (scanTree h b base name deps).1 !! imp = deps !! imp
  ∧ EvFindPkg imp ∉ (scanTree h b base name deps).2.
Proof.
  intros Hpre.
  apply (scanTree_state h b base name
           (λ st, st.1 !! imp = deps !! imp ∧ EvFindPkg imp ∉ st.2)).
  - intros deps' log path [Heq Hlog]. split; [done|]. simpl.
    rewrite elem_of_app, list_elem_of_singleton. by intros [?|[=]].
  - intros deps' log path [Heq Hlog]. split; [done|]. simpl.
    rewrite elem_of_app, list_elem_of_singleton. by intros [?|[=]].
  - intros imp' deps' log [Heq Hlog] Hpre' _.
    assert (imp' ≠ imp) as Hne by (intros ->; congruence).
    assert (EvFindPkg imp ∉ log ++ [EvFindPkg imp']) as Hlog'.
    { rewrite elem_of_app, list_elem_of_singleton. intros [?|[=]]; [done|congruence]. }
    simpl.
    split; [done|]. intros _ _. split; [|done]. simpl. by rewrite lookup_insert_ne.
  - split; [done|]. apply not_elem_of_nil.
Qed.

(** ** The direct walk *)

Lemma nodes_unfold (c : call) : nodes c = c :: flat_map nodes (call_sub c).
Proof.
  destruct c as [n v p r sub]. reflexivity.
Qed.


Section direct.
Context (h : Host) (b : BuildCtxt).

(** A package found under the vendor overlay of [vpath] is registered
    under the name it was imported by. *)
Lemma realName_overlay (vpath imp : string) (pkg : Package) :
  ImportPath pkg = vpath +:+ "/vendor/" +:+ imp → realName vpath pkg = imp.
Proof.
  intros Hpath. unfold realName. rewrite Hpath, <- append_assoc. apply TrimPrefix_app.
Qed.

Lemma findDeps_unfold (fuel : nat) (soFar : gmap string bool) (name vpath : string) :
  findDeps h (S fuel) b soFar name vpath =
  match Getwd h with
  | inr err => (soFar, Err err, Call name vpath None (Err err) [])
  | inl cwd =>
    if String.eqb name "C" then (soFar, Nil, Call name vpath None Nil [])
    else
      let '(pkg, err) := Import b name cwd in
      match err with
      | Some err => (soFar, Err err, Call name vpath None (Err err) [])
      | None =>
        if Goroot pkg then (soFar, Nil, Call name vpath (Some pkg) Nil [])
        else
          let vpath' := effective_vpath vpath pkg in
          let '(soFar', r, cs) :=
            rangeImports (λ s n, findDeps h fuel b s n vpath') vpath' (Imports pkg)
              (register h vpath' pkg soFar) in
          (soFar', r, Call name vpath (Some pkg) r cs)
      end
  end.
Proof. reflexivity. Qed.


Lemma rangeImports_preserves (P : gmap string bool → Prop)
    (rec : gmap string bool → string → gmap string bool * outcome * call)
    (vpath : string) (imports : list string) :
  (∀ s n, P s → P (rec s n).1.1) →
  ∀ soFar, P soFar → P (rangeImports rec vpath imports soFar).1.1.
Proof.
  intros Hrec. induction imports as [|imp rest IH]; intros soFar Hs; [done|].
  simpl. destruct (negb (has soFar imp)); [|by apply IH].
  pose proof (Hrec soFar (vpath +:+ "/vendor/" +:+ imp) Hs) as H1.
  destruct (rec soFar (vpath +:+ "/vendor/" +:+ imp)) as [[s1 r1] c1]. simpl in H1.
  destruct r1 as [|e|].
  - specialize (IH s1 H1). by destruct (rangeImports rec vpath rest s1) as [[s' r'] cs'].
  - pose proof (Hrec s1 imp H1) as H2.
    destruct (rec s1 imp) as [[s2 r2] c2]. simpl in H2.
    destruct r2; try done.
    specialize (IH s2 H2). by destruct (rangeImports rec vpath rest s2) as [[s' r'] cs'].
  - done.
Qed.

(** A property of the discovery set kept by every registration is kept
    by the whole walk. [V name vpath] restricts the arguments the walk
    is entered with. *)
Lemma findDeps_preserves (P : gmap string bool → Prop) (V : string → string → Prop) :
  (∀ name vpath cwd pkg,
     V name vpath → Getwd h = inl cwd → name ≠ "C" →
     Import b name cwd = (pkg, None) → Goroot pkg = false →
     (∀ n, V n (effective_vpath vpath pkg)) ∧
     (∀ s, P s → P (register h (effective_vpath vpath pkg) pkg s))) →
  ∀ fuel soFar name vpath,
    V name vpath → P soFar → P (findDeps h fuel b soFar name vpath).1.1.
Proof.
  intros Hstep fuel. induction fuel as [|fuel IH]; intros soFar name vpath HV Hs; [done|].
  rewrite findDeps_unfold.
  destruct (Getwd h) as [cwd|e] eqn:Hwd; [|done].
  destruct (String.eqb_spec name "C") as [|HC]; [done|].
  destruct (Import b name cwd) as [pkg [e|]] eqn:Himp; [done|].
  destruct (Goroot pkg) eqn:Hroot; [done|]. simpl.
  destruct (Hstep name vpath cwd pkg HV eq_refl HC Himp Hroot) as [HV' HP'].
  pose proof (rangeImports_preserves P
    (λ s n, findDeps h fuel b s n (effective_vpath vpath pkg))
    (effective_vpath vpath pkg) (Imports pkg)) as Hloop.
  specialize (Hloop (λ s n Hs', IH s n _ (HV' n) Hs') _ (HP' _ Hs)).
  by destruct (rangeImports _ _ _ _) as [[s' r'] cs'].
Qed.

(** A property of single invocations holds of every node of the call
    tree, once it holds of the invocations that stop early and of those
    that run the loop over the imports. *)
Lemma findDeps_nodes (Q : call → Prop) (V : string → string → Prop) :
  (∀ name vpath r, Q (Call name vpath None r [])) →
  (∀ name vpath pkg,
     name ≠ "C" → Goroot pkg = true → Q (Call name vpath (Some pkg) Nil [])) →
  (∀ fuel name vpath cwd pkg s,
     V name vpath → Getwd h = inl cwd → name ≠ "C" →
     Import b name cwd = (pkg, None) → Goroot pkg = false →
     (∀ n, V n (effective_vpath vpath pkg)) ∧
     let v' := effective_vpath vpath pkg in
     let out := rangeImports (λ s n, findDeps h fuel b s n v') v' (Imports pkg) s in
     Q (Call name vpath (Some pkg) out.1.2 out.2)) →
  ∀ fuel soFar name vpath,
    V name vpath → Forall Q (nodes (findDeps h fuel b soFar name vpath).2).
Proof.
  intros Hleaf Hstd Hloop fuel.
  induction fuel as [|fuel IH]; intros soFar name vpath HV.
  { simpl. repeat constructor. apply Hleaf. }
  rewrite findDeps_unfold.
  destruct (Getwd h) as [cwd|e] eqn:Hwd; [|simpl; repeat constructor; apply Hleaf].
  destruct (String.eqb_spec name "C") as [|HC]; [simpl; repeat constructor; apply Hleaf|].
  destruct (Import b name cwd) as [pkg [e|]] eqn:Himp;
    [simpl; repeat constructor; apply Hleaf|].
  destruct (Goroot pkg) eqn:Hroot; [simpl; repeat constructor; by apply Hstd|].
  simpl.
  destruct (Hloop fuel name vpath cwd pkg
              (register h (effective_vpath vpath pkg) pkg soFar)
              HV eq_refl HC Himp Hroot) as [HV' HQ].
  simpl in HQ.
  assert (∀ imports s,
    Forall (λ c, Forall Q (nodes c))
      (rangeImports (λ s n, findDeps h fuel b s n (effective_vpath vpath pkg))
         (effective_vpath vpath pkg) imports s).2) as Hsub.
  { induction imports as [|imp rest IHr]; intros s; [constructor|].
    simpl. destruct (negb (has s imp)); [|apply IHr].
    pose proof (IH s (effective_vpath vpath pkg +:+ "/vendor/" +:+ imp)
                  (effective_vpath vpath pkg) (HV' _)) as H1.
    destruct (findDeps h fuel b s _ _) as [[s1 r1] c1]. simpl in H1.
    destruct r1 as [|e|].
    - specialize (IHr s1). destruct (rangeImports _ _ rest s1) as [[s' r'] cs'].
      simpl in *. by constructor.
    - pose proof (IH s1 imp (effective_vpath vpath pkg) (HV' _)) as H2.
      destruct (findDeps h fuel b s1 imp _) as [[s2 r2] c2]. simpl in H2.
      destruct r2; simpl; try by repeat constructor.
      specialize (IHr s2). destruct (rangeImports _ _ rest s2) as [[s' r'] cs'].
      simpl in *. by repeat constructor.
    - simpl. by repeat constructor. }
  specialize (Hsub (Imports pkg) (register h (effective_vpath vpath pkg) pkg soFar)).
  destruct (rangeImports _ _ _ _) as [[s' r'] cs']. simpl in Hsub, HQ.
  change (Forall Q (nodes (Call name vpath (Some pkg) r' cs'))).
  rewrite nodes_unfold. constructor; [done|].
  simpl. by apply Forall_flat_map.
Qed.


End direct.

(** ** Runs of [GuessDeps] *)

Section runs.
Context (h : Host).

(** The discovery set of a run that returns: what the direct walk left,
    extended by the fallback scan exactly when the walk returned a
    [NoGoError]. *)
Lemma GuessDeps_returned (fuel : nat) (dirname : option string)
    (config : Config) (tr : Trace) :
  GuessDeps h fuel dirname = Some (Returned config, tr) →
  ∃ b deps err c,
    let base := default "." dirname in
    let name := guessPackageName h b base in
    GetBuildContext h = inl b
    ∧ findDeps h fuel b ∅ base "" = (deps, err, c)
    ∧ err ≠ Diverge
    ∧ direct tr = Some c
    ∧ cfgName config = name
    ∧ cfgImports config = dom (delete base (compactDeps h (discovered tr)))
    ∧ ((∃ d, err = Err (NoGoError d)
            ∧ discovered tr = (scanTree h b base name deps).1
            ∧ fallback tr = Some (scanTree h b base name deps).2)
       ∨ ((∀ d, err ≠ Err (NoGoError d))
            ∧ discovered tr = deps ∧ fallback tr = None)).
Proof.
  unfold GuessDeps. destruct (GetBuildContext h) as [b|e]; [|done].
  destruct (findDeps h fuel b ∅ (default "." dirname) "") as [[deps err] c] eqn:Hfd.
  intros Hrun. exists b, deps, err, c. simpl.
  destruct err as [|[d|msg]|]; [| | |done].
  - injection Hrun as <- <-. simpl. repeat split; try done. right. by repeat split.
  - destruct (scanTree h b _ _ deps) as [deps' log] eqn:Hscan.
    injection Hrun as <- <-. simpl. repeat split; try done. left. by exists d.
  - injection Hrun as <- <-. simpl. repeat split; try done. right. by repeat split.
Qed.

End runs.


(** What the guards on the standard library and on cgo ensure. In a run
    that returns a configuration, every entry of the discovery set is
    either the de-vendored import path of a package that was resolved from
    a name other than ["C"] and is not reported as standard library
    (direct walk), or an import that [findPkg] classes neither as standard
    library nor as cgo (fallback scan); every final dependency is the top
    level identity of such an entry; and at every depth of the walk an
    invocation on ["C"] resolves and visits nothing and a standard library
    package is not descended into. *)
Lemma stdlib_and_cgo_guarded (h : Host) (fuel : nat) (dirname : option string)
    (b : BuildCtxt) (config : Config) (tr : Trace) :
  GetBuildContext h = inl b →
  GuessDeps h fuel dirname = Some (Returned config, tr) →
  (∀ k, k ∈ dom (discovered tr) →
     walk_found h b k ∨ scan_found h b (default "." dirname) k)
  ∧ (∀ t, t ∈ cfgImports config → ∃ k, k ∈ dom (discovered tr) ∧ t = topLevel h k)
  ∧ (∃ root, direct tr = Some root ∧ Forall guarded (nodes root)).
Proof.
  intros Hb Hrun.
  apply GuessDeps_returned in Hrun
    as (b' & deps & err & c & Hb' & Hfd & _ & Hdirect & _ & Himports & Hfound).
  simpl in *. rewrite Hb in Hb'. injection Hb' as <-.
  set (base := default "." dirname) in *.
  pose (P := λ s : gmap string bool,
          ∀ k, k ∈ dom s → walk_found h b k ∨ scan_found h b base k).
  assert (P deps) as Hdeps.
  { replace deps with (findDeps h fuel b ∅ base "").1.1 by by rewrite Hfd.
    apply (findDeps_preserves h b P (λ _ _, True)); [|done|].
    - intros n v cwd pkg _ Hwd HC Himp Hroot. split; [done|].
      intros s Hs k. unfold register. destruct (negb _); [|apply Hs].
      rewrite dom_insert_L. intros [Hk%elem_of_singleton|Hk]%elem_of_union; [|by apply Hs].
      left. exists cwd, n, (effective_vpath v pkg), pkg. by repeat split.
    - intros k. rewrite dom_empty_L. by intros ?%not_elem_of_empty. }
  assert (P (discovered tr)) as Hall.
  { destruct Hfound as [(d & _ & -> & _)|(_ & -> & _)]; [|done].
    apply scanTree_preserves; [|done].
    intros imp s Hs _ _ Hgo Hcgo k. rewrite dom_insert_L.
    intros [Hk%elem_of_singleton|Hk]%elem_of_union; [|by apply Hs].
    subst k. by right. }
  split; [done|]. split.
  - intros t. rewrite Himports, dom_delete_L, compactDeps_dom.
    intros [(k & Heq & Hk)%elem_of_map _]%elem_of_difference. eauto.
  - exists c. split; [done|].
    replace c with (findDeps h fuel b ∅ base "").2 by by rewrite Hfd.
    apply (findDeps_nodes h b guarded (λ _ _, True)); [| | |done].
    + intros n v r. split; [done|]. by intros p [=].
    + intros n v pkg HC Hroot. by split.
    + intros f n v cwd pkg s _ _ HC _ Hroot. split; [done|]. simpl. split; [done|].
      intros p [= <-]. congruence.
Qed.

(** C1. When the direct walk ends with an error that is not a
    [NoGoError], [GuessDeps] does not interrupt: it skips the fallback
    scan and returns a configuration made of the guessed name and of the
    compaction of whatever the walk had registered before it failed. *)
Theorem resolution_failure_not_fatal (h : Host) (fuel : nat) (dirname : option string)
    (b : BuildCtxt) (deps : gmap string bool) (e : error) (c : call) :
  GetBuildContext h = inl b →
  findDeps h fuel b ∅ (default "." dirname) "" = (deps, Err e, c) →
  isNoGoError e = false →
  GuessDeps h fuel dirname =
    Some (Returned {| cfgName := guessPackageName h b (default "." dirname);
                      cfgImports := dom (delete (default "." dirname) (compactDeps h deps)) |},
          {| discovered := deps; direct := Some c; fallback := None |}).
Proof.
  intros Hb Hfd He. unfold GuessDeps. rewrite Hb, Hfd. by destruct e.
Qed.

(** When it is the resolution of the root itself that fails, nothing has
    been registered and the configuration has no dependencies. *)
Lemma root_failure_empty_config (h : Host) (fuel : nat) (dirname : option string)
    (b : BuildCtxt) (cwd : string) (pkg : Package) (e : error) :
  GetBuildContext h = inl b → Getwd h = inl cwd →
  default "." dirname ≠ "C" →
  Import b (default "." dirname) cwd = (pkg, Some e) →
  isNoGoError e = false →
  GuessDeps h (S fuel) dirname =
    Some (Returned {| cfgName := guessPackageName h b (default "." dirname);
                      cfgImports := ∅ |},
          {| discovered := ∅;
             direct := Some (Call (default "." dirname) "" None (Err e) []);
             fallback := None |}).
Proof.
  intros Hb Hwd HC Himp He.
  assert (dom (delete (default "." dirname) (compactDeps h ∅)) = (∅ : gset string)) as Hdom.
  { assert (compactDeps h ∅ = ∅) as -> by apply map_fold_empty.
    by rewrite delete_empty, dom_empty_L. }
  unfold GuessDeps. rewrite Hb, findDeps_unfold, Hwd.
  apply String_eqb_false in HC as ->. rewrite Himp.
  destruct e; [done|]. by rewrite Hdom.
Qed.

(** C8. In a run that returns a configuration, the fallback scan ran
    exactly when the direct walk from the root returned a [NoGoError],
    wherever in the walk that error arose. *)
Theorem fallback_iff_walk_NoGoError (h : Host) (fuel : nat) (dirname : option string)
    (b : BuildCtxt) (config : Config) (tr : Trace) :
  GetBuildContext h = inl b →
  GuessDeps h fuel dirname = Some (Returned config, tr) →
  is_Some (fallback tr) ↔
  ∃ d, (findDeps h fuel b ∅ (default "." dirname) "").1.2 = Err (NoGoError d).
Proof.
  intros Hb Hrun.
  apply GuessDeps_returned in Hrun
    as (b' & deps & err & c & Hb' & Hfd & _ & _ & _ & _ & Hfound).
  simpl in *. rewrite Hb in Hb'. injection Hb' as <-. rewrite Hfd. simpl.
  destruct Hfound as [(d & -> & _ & ->)|(Hne & _ & ->)].
  - split; eauto.
  - split; [by intros [? [=]]|]. intros [d Hd]. by destruct (Hne d).
Qed.


(** ** Skip-listed directories *)

Section skip_list.
Context (h : Host) (b : BuildCtxt) (base name : string).
Hypothesis excluded : ∀ path fi, skipListed path fi = true → excludeSubtree h path fi = true.





End skip_list.


(** ** Termination of the direct walk *)

Section termination.
Context (h : Host) (b : BuildCtxt) (v : string) (paths : list string) (root : string).
Hypothesis v_nonempty : v ≠ "".
Hypothesis acyclic :
  ∀ n, rtc (imports_edge h b v) root n → ¬ tc (imports_edge h b v) n n.




End termination.



(** A numbering of the names that decreases along every import shows that
    the import relation has no cycle. *)
Lemma acyclic_by_rank (h : Host) (b : BuildCtxt) (v : string) (rank : string → nat) :
  (∀ n m, imports_edge h b v n m → rank m < rank n) →
  ∀ n, ¬ tc (imports_edge h b v) n n.
Proof.
  intros Hrank.
  assert (∀ n m, tc (imports_edge h b v) n m → rank m < rank n) as Htc.
  { intros n m Hnm. induction Hnm as [n m Hedge|n k m Hedge _ IH].
    - by apply Hrank.
    - apply Hrank in Hedge. lia. }
  intros n Hn. apply Htc in Hn. lia.
Qed.


(** ** The fuel does not matter once the walk returns *)

Section fuel.
Context (h : Host) (b : BuildCtxt).

Lemma rangeImports_more_fuel
    (rec rec' : gmap string bool → string → gmap string bool * outcome * call)
    (vpath : string) (imports : list string) :
  (∀ s n, (rec s n).1.2 ≠ Diverge → rec' s n = rec s n) →
  ∀ soFar,
    (rangeImports rec vpath imports soFar).1.2 ≠ Diverge →
    rangeImports rec' vpath imports soFar = rangeImports rec vpath imports soFar.
Proof.
  intros Hrec. induction imports as [|imp rest IH]; intros soFar Hret; [done|].
  simpl in *. destruct (negb (has soFar imp)); [|by apply IH].
  pose proof (Hrec soFar (vpath +:+ "/vendor/" +:+ imp)) as H1.
  destruct (rec soFar (vpath +:+ "/vendor/" +:+ imp)) as [[s1 r1] c1].
  destruct r1 as [|e|]; [| |done].
  - rewrite H1 by done. specialize (IH s1).
    destruct (rangeImports rec vpath rest s1) as [[s' r'] cs'].
    by rewrite IH.
  - rewrite H1 by done. pose proof (Hrec s1 imp) as H2.
    destruct (rec s1 imp) as [[s2 r2] c2].
    destruct r2 as [|e2|]; [| |done].
    + rewrite H2 by done. specialize (IH s2).
      destruct (rangeImports rec vpath rest s2) as [[s' r'] cs'].
      by rewrite IH.
    + by rewrite H2.
Qed.

Lemma findDeps_more_fuel (fuel : nat) (soFar : gmap string bool) (name vpath : string) :
  (findDeps h fuel b soFar name vpath).1.2 ≠ Diverge →
  findDeps h (S fuel) b soFar name vpath = findDeps h fuel b soFar name vpath.
Proof.
  revert soFar name vpath.
  induction fuel as [|fuel IH]; intros soFar name vpath Hret; [done|].
  rewrite (findDeps_unfold h b (S fuel)).
  rewrite findDeps_unfold in Hret |- *.
  destruct (Getwd h) as [cwd|e]; [|done].
  destruct (String.eqb name "C"); [done|].
  destruct (Import b name cwd) as [pkg [e|]]; [done|].
  destruct (Goroot pkg); [done|]. simpl in *.
  rewrite (rangeImports_more_fuel
             (λ s n, findDeps h fuel b s n (effective_vpath vpath pkg))
             (λ s n, findDeps h (S fuel) b s n (effective_vpath vpath pkg))).
  - done.
  - intros s n. apply IH.
  - by destruct (rangeImports _ _ _ _) as [[s' r'] cs'].
Qed.

End fuel.

(** A run that returns with some fuel is the run with any larger fuel. *)
Lemma GuessDeps_more_fuel (h : Host) (fuel extra : nat) (dirname : option string)
    (run : result * Trace) :
  GuessDeps h fuel dirname = Some run → GuessDeps h (fuel + extra) dirname = Some run.
Proof.
  intros Hrun. induction extra as [|extra IH]; [by rewrite Nat.add_0_r|].
  rewrite Nat.add_succ_r. revert IH. generalize (fuel + extra). clear Hrun.
  intros f. unfold GuessDeps. destruct (GetBuildContext h) as [b|e]; [|done].
  pose proof (findDeps_more_fuel h b f ∅ (default "." dirname) "") as Hmore.
  destruct (findDeps h f b ∅ (default "." dirname) "") as [[deps err] c].
  destruct err as [|e|]; [| |done].
  - by rewrite Hmore.
  - by rewrite Hmore.
Qed.

(** The only error [GuessDeps] hands to its caller is that of
    [GetBuildContext]. *)
Lemma GuessDeps_interrupt (h : Host) (fuel : nat) (dirname : option string)
    (e : error) (tr : Trace) :
  GuessDeps h fuel dirname = Some (Interrupt e, tr) → GetBuildContext h = inr e.
Proof.
  unfold GuessDeps. destruct (GetBuildContext h) as [b|e']; [|by intros [= ->]].
  destruct (findDeps h fuel b ∅ (default "." dirname) "") as [[deps err] c].
  destruct err as [|[d|msg]|]; try done.
  by destruct (scanTree h b _ _ deps).
Qed.

(** * The theorems on the sample hosts *)




(** C1, on a root that imports a package which cannot be found. *)
Lemma resolution_failure_not_fatal_witness :
  let run := GuessDeps Sample.h_partial 3 None in
  GetBuildContext Sample.h_partial = inl Sample.b_partial
  ∧ (findDeps Sample.h_partial 3 Sample.b_partial ∅ "." "").1.2
      = Err (OtherError "cannot find package")
  ∧ run = Some (Returned {| cfgName := "example.org/proj";
                            cfgImports := {[ "example.org/lib" ]} |},
                Sample.trace_of run).
Proof.
  split; [reflexivity|]. split; [vm_compute; reflexivity|].
  etransitivity.
  - apply (resolution_failure_not_fatal Sample.h_partial 3 None Sample.b_partial
             (findDeps Sample.h_partial 3 Sample.b_partial ∅ "." "").1.1
             (OtherError "cannot find package")
             (findDeps Sample.h_partial 3 Sample.b_partial ∅ "." "").2);
      [reflexivity|vm_compute; reflexivity|reflexivity].
  - vm_compute. reflexivity.
Defined.

(** C1 as stated fails: the root does not resolve because of a syntax
    error, and [GuessDeps] returns a configuration, not the error. *)
Lemma root_error_not_reported :
  Import Sample.b_broken "." "/go/src/example.org/proj"
    = ({| ImportPath := "example.org/proj"; Imports := []; Goroot := false |},
       Some (OtherError "syntax error"))
  ∧ GuessDeps Sample.h_broken 1 None
    = Some (Returned {| cfgName := "example.org/proj"; cfgImports := ∅ |},
            {| discovered := ∅;
               direct := Some (Call "." "" None (Err (OtherError "syntax error")) []);
               fallback := None |}).
Proof. split; vm_compute; reflexivity. Qed.


(** The guards on the project with packages of its own. *)
Lemma stdlib_and_cgo_guarded_sample :
  let run := GuessDeps Sample.h_proj 4 None in
  run = Some (Returned (Sample.config_of run), Sample.trace_of run)
  ∧ (∀ k, k ∈ dom (discovered (Sample.trace_of run)) →
       walk_found Sample.h_proj Sample.b_proj k
       ∨ scan_found Sample.h_proj Sample.b_proj "." k)
  ∧ (∀ t, t ∈ cfgImports (Sample.config_of run) →
       ∃ k, k ∈ dom (discovered (Sample.trace_of run)) ∧ t = topLevel Sample.h_proj k)
  ∧ (∃ root, direct (Sample.trace_of run) = Some root ∧ Forall guarded (nodes root)).
Proof.
  intros run. split; [vm_compute; reflexivity|].
  apply (stdlib_and_cgo_guarded Sample.h_proj 4 None Sample.b_proj);
    [reflexivity|vm_compute; reflexivity].
Qed.

(** C3. A project imports ["C"] and has a vendored package in a
    directory named [C]. The loop of [findDeps] tries the overlay name
    [example.org/proj/vendor/C] before the plain name ["C"], it resolves,
    and the package is registered under its de-vendored name: ["C"] is in
    the discovery set and in the final dependencies. *)
Theorem cgo_name_registered :
  let run := GuessDeps Sample.h_cgo 3 None in
  Imports (Import Sample.b_cgo "." "/go/src/example.org/proj").1 = ["C"]
  ∧ Import Sample.b_cgo "example.org/proj/vendor/C" "/go/src/example.org/proj"
    = ({| ImportPath := "example.org/proj/vendor/C"; Imports := []; Goroot := false |}, None)
  ∧ option_map fst run
    = Some (Returned {| cfgName := "example.org/proj"; cfgImports := {[ "C" ]} |})
  ∧ discovered (Sample.trace_of run) = {[ "C" := true ]}.
Proof. repeat split; vm_compute; reflexivity. Qed.

(** C4, on [example.org/lib] and [example.org/lib/sub]. *)
Lemma compactDeps_exact_witness :
  topLevel Sample.h_proj "example.org/lib" = "example.org/lib"
  ∧ topLevel Sample.h_proj "example.org/lib/sub" = "example.org/lib"
  ∧ compactDeps Sample.h_proj
      (<["example.org/lib/sub" := true]> (<["example.org/lib" := true]> ∅))
    = {[ "example.org/lib" := true ]}.
Proof.
  split; [reflexivity|]. split; [reflexivity|].
  apply (compactDeps_exact Sample.h_proj ∅); reflexivity.
Defined.




(** C7, in a directory outside [GOPATH] that holds no Go file: the name
    is ["."], not ["main"]. *)
Lemma guessPackageName_falls_through_witness :
  Import Sample.b_outside "." "/tmp/work"
    = ({| ImportPath := "."; Imports := []; Goroot := false |}, Some (NoGoError "/tmp/work"))
  ∧ HasPrefix "." (GOPATH Sample.b_outside) = false
  ∧ guessPackageName Sample.h_outside Sample.b_outside "." = "."
  ∧ guessPackageName Sample.h_outside Sample.b_outside "." ≠ "main".
Proof.
  split; [reflexivity|]. split; [reflexivity|].
  assert (guessPackageName Sample.h_outside Sample.b_outside "." = ".") as Heq.
  { apply (guessPackageName_falls_through Sample.h_outside Sample.b_outside "." "/tmp/work"
             {| ImportPath := "."; Imports := []; Goroot := false |}
             (NoGoError "/tmp/work")); reflexivity. }
  split; [exact Heq|]. rewrite Heq. discriminate.
Defined.

(** C8, on the project without Go files at its root. *)
Lemma fallback_iff_walk_NoGoError_witness :
  let run := GuessDeps Sample.h_scan 3 None in
  run = Some (Returned (Sample.config_of run), Sample.trace_of run)
  ∧ (is_Some (fallback (Sample.trace_of run)) ↔
     ∃ d, (findDeps Sample.h_scan 3 Sample.b_scan ∅ "." "").1.2 = Err (NoGoError d)).
Proof.
  intros run. split; [vm_compute; reflexivity|].
  apply (fallback_iff_walk_NoGoError Sample.h_scan 3 None Sample.b_scan
           (Sample.config_of run) (Sample.trace_of run));
    [reflexivity|vm_compute; reflexivity].
Defined.

(** C8 as stated fails: the root resolves without error, the directory
    of its import [example.org/tools] holds no Go file, the [NoGoError] of
    that nested resolution is what the walk returns, and the fallback scan
    runs. *)
Lemma nested_NoGoError_starts_fallback :
  let run := GuessDeps Sample.h_nested 3 None in
  (Import Sample.b_nested "." "/go/src/example.org/proj").2 = None
  ∧ (Import Sample.b_nested "example.org/tools" "/go/src/example.org/proj").2
    = Some (NoGoError "/go/src/example.org/tools")
  ∧ fallback (Sample.trace_of run)
    = Some [EvWalkFn "."; EvImportDir "."; EvFindPkg "example.org/tools";
            EvWalkFn "main.go"; EvWalkFn "cmd"; EvImportDir "cmd";
            EvFindPkg "fmt"; EvFindPkg "example.org/dep/x"; EvWalkFn "cmd/tool.go"]
  ∧ option_map fst run
    = Some (Returned {| cfgName := "example.org/proj";
                        cfgImports := {[ "example.org/tools"; "example.org/dep" ]} |}).
Proof. repeat split; vm_compute; reflexivity. Qed.


(** C10, on the project named [foo] that imports [foobar/x]. *)
Lemma scan_skips_name_prefix_witness :
  guessPackageName Sample.h_foo Sample.b_foo "." = "foo"
  ∧ HasPrefix "foobar/x" "foo" = true
  ∧ ((scanTree Sample.h_foo Sample.b_foo "." "foo" ∅).1 !! "foobar/x"
       = (∅ : gmap string bool) !! "foobar/x"
     ∧ EvFindPkg "foobar/x" ∉ (scanTree Sample.h_foo Sample.b_foo "." "foo" ∅).2)
  ∧ (scanTree Sample.h_foo Sample.b_foo "." "foo" ∅).1 !! "bar/y" = Some true.
Proof.
  split; [reflexivity|]. split; [reflexivity|]. split.
  - apply (scan_skips_name_prefix Sample.h_foo Sample.b_foo "." "foo" ∅ "foobar/x").
    reflexivity.
  - vm_compute. reflexivity.
Defined.

(** * Further properties of the code *)

(** ** Strings *)

Lemma cut_prefix_longer (p : string) (c : ascii) (s : string) :
  cut_prefix (p +:+ String c s) p = None.
Proof.
  induction p as [|a p IH]; [done|].
  change (cut_prefix (String a (p +:+ String c s)) (String a p) = None).
  simpl. by rewrite Ascii.eqb_refl.
Qed.

(** A package that is not below the vendor directory of its own path
    keeps its import path as name. *)
Lemma realName_self (pkg : Package) : realName (ImportPath pkg) pkg = ImportPath pkg.
Proof. unfold realName, TrimPrefix. by rewrite cut_prefix_longer. Qed.

Lemma overlay_name_not_C (v imp : string) : v +:+ "/vendor/" +:+ imp ≠ "C".
Proof.
  destruct v as [|c v]; [done|]. destruct v as [|c' v]; [done|].
  intros H. discriminate H.
Qed.

(** ** What the scan visits and adds *)

Lemma walkPaths_app (l k : list event) : walkPaths (l ++ k) = walkPaths l ++ walkPaths k.
Proof. apply omap_app. Qed.

Lemma addAll_app (deps : gmap string bool) (l k : list string) :
  addAll deps (l ++ k) = addAll (addAll deps l) k.
Proof. apply foldl_app. Qed.

Lemma addAll_lookup (imps : list string) (deps : gmap string bool) (k : string) :
  addAll deps imps !! k = if bool_decide (k ∈ imps) then Some true else deps !! k.
Proof.
  revert deps. induction imps as [|imp imps IH]; intros deps; [done|].
  simpl. rewrite IH.
  destruct (decide (k ∈ imps)) as [Hin|Hout].
  { rewrite !bool_decide_eq_true_2; [done|by right|done]. }
  rewrite (bool_decide_eq_false_2 _ Hout). destruct (decide (k = imp)) as [->|Hne].
  - rewrite lookup_insert_eq, bool_decide_eq_true_2; [done|by left].
  - rewrite lookup_insert_ne by done. rewrite bool_decide_eq_false_2; [done|].
    by intros [?|?]%elem_of_cons.
Qed.

Lemma addAll_dom (imps : list string) (deps : gmap string bool) :
  dom (addAll deps imps) = dom deps ∪ list_to_set imps.
Proof.
  apply set_eq. intros k. rewrite elem_of_dom, addAll_lookup, elem_of_union,
    elem_of_dom, elem_of_list_to_set.
  case_bool_decide as Hin.
  - split; [by right|by eauto].
  - split; [by left|]. by intros [?|?].
Qed.

Section scan_exact.
Context (h : Host) (b : BuildCtxt) (base name : string).

Lemma scanImports_exact (imports : list string) (deps : gmap string bool) (log : list event) :
  (scanImports h b base name imports deps log).1
    = addAll deps (List.filter (kept h b base name) imports)
  ∧ walkPaths (scanImports h b base name imports deps log).2 = walkPaths log.
Proof.
  revert deps log. induction imports as [|imp rest IH]; intros deps log; [done|].
  simpl. unfold kept at 1.
  destruct (HasPrefix imp name); [apply IH|].
  destruct (String.eqb imp name); [apply IH|]. simpl.
  assert (walkPaths (log ++ [EvFindPkg imp]) = walkPaths log) as Hlog.
  { rewrite walkPaths_app. simpl. apply app_nil_r. }
  destruct (PType (findPkg h b imp base));
    (destruct (IH deps (log ++ [EvFindPkg imp])) as [IH1 IH2] ||
     destruct (IH (<[imp := true]> deps) (log ++ [EvFindPkg imp])) as [IH1 IH2]).
  - split; [exact IH1|by rewrite IH2].
  - split; [exact IH1|by rewrite IH2].
  - destruct (IH (<[imp := true]> deps) (log ++ [EvFindPkg imp])) as [IH1' IH2'].
    split; [exact IH1'|by rewrite IH2'].
Qed.

Lemma scanDir_exact (path : string) (fi : FileInfo) (deps : gmap string bool)
    (log : list event) :
  (scanDir h b base name path fi (deps, log)).1.1
    = addAll deps (dirFinds h b base name path fi)
  ∧ walkPaths (scanDir h b base name path fi (deps, log)).1.2 = walkPaths log ++ [path]
  ∧ (scanDir h b base name path fi (deps, log)).2
    = (if skips h path fi then SkipDir else WalkNil).
Proof.
  assert (walkPaths (log ++ [EvWalkFn path]) = walkPaths log ++ [path]) as Hlog
    by by rewrite walkPaths_app.
  unfold scanDir, dirFinds, skips, skipListed.
  destruct (excludeSubtree h path fi); simpl.
  { by destruct (IsDir fi && _). }
  assert (walkPaths ((log ++ [EvWalkFn path]) ++ [EvImportDir path])
          = walkPaths log ++ [path]) as Hlog'.
  { rewrite walkPaths_app, Hlog. simpl. apply app_nil_r. }
  destruct (ImportDir b path) as [pkg [e|]]; [done|].
  destruct (Goroot pkg); [done|]. simpl.
  destruct (scanImports_exact (Imports pkg) deps
              ((log ++ [EvWalkFn path]) ++ [EvImportDir path])) as [H1 H2].
  by rewrite H1, H2.
Qed.

Lemma walkEntries_scan_exact (es : list fsnode) :
  Forall (λ t, ∀ deps log,
    (walk (scanDir h b base name) t (deps, log)).1.1
      = addAll deps (scanFinds h b base name t)
    ∧ walkPaths (walk (scanDir h b base name) t (deps, log)).1.2
      = walkPaths log ++ visited h t
    ∧ (walk (scanDir h b base name) t (deps, log)).2 = WalkNil) es →
  ∀ deps log,
    (walkEntries (scanDir h b base name) es (deps, log)).1.1
      = addAll deps (flat_map (scanFinds h b base name) es)
    ∧ walkPaths (walkEntries (scanDir h b base name) es (deps, log)).1.2
      = walkPaths log ++ flat_map (visited h) es
    ∧ (walkEntries (scanDir h b base name) es (deps, log)).2 = WalkNil.
Proof.
  induction 1 as [|e es He _ IHes]; intros deps log.
  { simpl. by rewrite app_nil_r. }
  simpl. destruct (He deps log) as (H1 & H2 & H3).
  destruct (walk (scanDir h b base name) e (deps, log)) as [[deps2 log2] sig].
  simpl in H1, H2, H3. subst deps2 sig.
  destruct (IHes (addAll deps (scanFinds h b base name e)) log2) as (H4 & H5 & H6).
  rewrite H4, H5, H6, H2, addAll_app, app_assoc. done.
Qed.

Lemma walk_scan_exact (t : fsnode) (deps : gmap string bool) (log : list event) :
  (walk (scanDir h b base name) t (deps, log)).1.1
    = addAll deps (scanFinds h b base name t)
  ∧ walkPaths (walk (scanDir h b base name) t (deps, log)).1.2
    = walkPaths log ++ visited h t
  ∧ (walk (scanDir h b base name) t (deps, log)).2 = WalkNil.
Proof.
  revert deps log. induction t as [path fi entries IH] using fsnode_forall_ind.
  intros deps log. rewrite walk_unfold.
  destruct (scanDir_exact path fi deps log) as (Hdeps & Hlog & Hsig).
  destruct (scanDir h b base name path fi (deps, log)) as [[deps1 log1] sig].
  simpl in Hdeps, Hlog, Hsig. subst deps1 sig. simpl scanFinds. simpl visited.
  destruct (skips h path fi) eqn:Hskips.
  { assert (IsDir fi = true) as ->.
    { unfold skips, skipListed in Hskips. by destruct (IsDir fi), (excludeSubtree h path fi). }
    simpl. by rewrite app_nil_r. }
  destruct (IsDir fi); simpl; [|by rewrite app_nil_r].
  destruct (walkEntries_scan_exact entries IH
              (addAll deps (dirFinds h b base name path fi)) log1) as (H4 & H5 & H6).
  rewrite H4, H5, H6, Hlog, addAll_app, <- app_assoc. done.
Qed.

End scan_exact.

(** X5. The fallback scan is never cut short: the callback is invoked, in
    the order of the walk, at the root and at every entry of every
    directory that the callback did not ask to skip, and nowhere else. *)
Theorem scan_visits_all_unskipped (h : Host) (b : BuildCtxt) (base name : string)
    (deps : gmap string bool) :
  walkPaths (scanTree h b base name deps).2 = visited h (fileTree h base).
Proof.
  unfold scanTree.
  by destruct (walk_scan_exact h b base name (fileTree h base) deps []) as (_ & -> & _).
Qed.

(** X6. The fallback scan adds to the discovery set exactly the direct
    imports of the directories it resolves that pass the three tests (not
    prefixed by the project name, not the project name, not classed as
    standard library or cgo); it removes nothing, and what was in the set
    before does not change what is added. *)
Theorem scan_adds_exactly (h : Host) (b : BuildCtxt) (base name : string)
    (deps : gmap string bool) :
  (scanTree h b base name deps).1
    = addAll deps (scanFinds h b base name (fileTree h base))
  ∧ dom (scanTree h b base name deps).1
    = dom deps ∪ list_to_set (scanFinds h b base name (fileTree h base)).
Proof.
  unfold scanTree.
  destruct (walk_scan_exact h b base name (fileTree h base) deps []) as (-> & _ & _).
  split; [done|apply addAll_dom].
Qed.

(** X7. A directory that [excludeSubtree] reports but that is not named
    [vendor] or [testdata] is not resolved itself, yet the walk goes on
    into it: the scan of the directory is the scan of its entries. *)
Theorem excluded_directory_still_entered (h : Host) (b : BuildCtxt) (base name : string)
    (path : string) (fi : FileInfo) (entries : list fsnode)
    (deps : gmap string bool) (log : list event) :
  IsDir fi = true → excludeSubtree h path fi = true → skipListed path fi = false →
  walk (scanDir h b base name) (FsNode path fi entries) (deps, log)
    = walkEntries (scanDir h b base name) entries (deps, log ++ [EvWalkFn path])
  ∧ (walk (scanDir h b base name) (FsNode path fi entries) (deps, log)).1.1
    = addAll deps (flat_map (scanFinds h b base name) entries).
Proof.
  intros Hdir Hex Hskip. split.
  - rewrite walk_unfold. unfold scanDir. rewrite Hex.
    unfold skipListed in Hskip. rewrite Hskip. by rewrite Hdir.
  - destruct (walk_scan_exact h b base name (FsNode path fi entries) deps log) as (-> & _).
    simpl. unfold dirFinds, skips. by rewrite Hex, Hskip, Hdir.
Qed.

Lemma excluded_directory_still_entered_witness :
  walk (scanDir Sample2.h_tools Sample2.b_tools "." "example.org/proj") Sample2.tree_tools (∅, [])
    = walkEntries (scanDir Sample2.h_tools Sample2.b_tools "." "example.org/proj")
        [ Sample.dir "_tools/gen" [ Sample.file "_tools/gen/g.go" ] ] (∅, [EvWalkFn "_tools"])
  ∧ (walk (scanDir Sample2.h_tools Sample2.b_tools "." "example.org/proj")
       Sample2.tree_tools (∅, [])).1.1
    = {[ "example.org/gen/lib" := true ]}.
Proof.
  destruct (excluded_directory_still_entered Sample2.h_tools Sample2.b_tools "."
              "example.org/proj" "_tools" {| IsDir := true; IsLink := false |}
              [ Sample.dir "_tools/gen" [ Sample.file "_tools/gen/g.go" ] ] ∅ [])
    as [Hwalk Hdeps]; [reflexivity..|].
  split; [exact Hwalk|]. etransitivity; [exact Hdeps|]. vm_compute. reflexivity.
Defined.

(** ** What the walk keeps *)

Section keeps.
Context (h : Host) (b : BuildCtxt).

(** The walk leaves every entry of the discovery set as it was or sets it
    to [true], whatever it returns. *)
Lemma findDeps_keeps (fuel : nat) (soFar : gmap string bool) (name vpath k : string) :
  (findDeps h fuel b soFar name vpath).1.1 !! k = soFar !! k
  ∨ (findDeps h fuel b soFar name vpath).1.1 !! k = Some true.
Proof.
  apply (findDeps_preserves h b (λ s, s !! k = soFar !! k ∨ s !! k = Some true)
           (λ _ _, True)); [|done|by left].
  intros n v cwd pkg _ _ _ _ _. split; [done|].
  intros s Hs. unfold register. destruct (negb _); [|done].
  destruct (decide (realName (effective_vpath v pkg) pkg = k)) as [->|Hne].
  - right. apply lookup_insert_eq.
  - by rewrite lookup_insert_ne.
Qed.

Lemma findDeps_keeps_true (fuel : nat) (soFar : gmap string bool) (name vpath k : string) :
  soFar !! k = Some true → (findDeps h fuel b soFar name vpath).1.1 !! k = Some true.
Proof. intros Hk. destruct (findDeps_keeps fuel soFar name vpath k); congruence. Qed.

Lemma rangeImports_keeps_true
    (rec : gmap string bool → string → gmap string bool * outcome * call)
    (vpath : string) (imports : list string) (soFar : gmap string bool) (k : string) :
  (∀ s n, s !! k = Some true → (rec s n).1.1 !! k = Some true) →
  soFar !! k = Some true → (rangeImports rec vpath imports soFar).1.1 !! k = Some true.
Proof.
  intros Hrec. by apply (rangeImports_preserves (λ s, s !! k = Some true)).
Qed.

End keeps.

(** X3. [findDeps] never removes an entry of the discovery set and never
    sets one to [false]: whatever it returns, every key is as it was
    before the call or maps to [true]. What a failing walk had registered
    is therefore still there. *)
Theorem walk_only_adds (h : Host) (b : BuildCtxt) (fuel : nat)
    (soFar : gmap string bool) (name vpath k : string) :
  (findDeps h fuel b soFar name vpath).1.1 !! k = soFar !! k
  ∨ (findDeps h fuel b soFar name vpath).1.1 !! k = Some true.
Proof. apply findDeps_keeps. Qed.

(** ** Runs of [GuessDeps], continued *)

Lemma compactDeps_empty (h : Host) : compactDeps h ∅ = ∅.
Proof. apply map_fold_empty. Qed.

(** X1. The only error [GuessDeps] ever hands to its caller is the one of
    [GetBuildContext]: it interrupts exactly when the build context cannot
    be obtained, and then nothing has been walked or scanned. *)
Theorem interrupt_iff_no_build_context (h : Host) (fuel : nat) (dirname : option string)
    (e : error) (tr : Trace) :
  GuessDeps h fuel dirname = Some (Interrupt e, tr)
  ↔ GetBuildContext h = inr e
    ∧ tr = {| discovered := ∅; direct := None; fallback := None |}.
Proof.
  unfold GuessDeps. destruct (GetBuildContext h) as [b|e'].
  - split; [|by intros [[=] _]].
    destruct (findDeps h fuel b ∅ (default "." dirname) "") as [[deps err] c].
    destruct err as [|[d|msg]|]; try done.
    by destruct (scanTree h b _ _ deps).
  - split; [by intros [= -> <-]|by intros [[= ->] ->]].
Qed.

(** X2. The dependencies of the returned configuration are exactly the top
    level identities of the entries of the discovery set, without the
    base directory given as [dirname]. *)
Theorem final_dependencies (h : Host) (fuel : nat) (dirname : option string)
    (config : Config) (tr : Trace) :
  GuessDeps h fuel dirname = Some (Returned config, tr) →
  cfgImports config
    = set_map (D := gset string) (topLevel h) (dom (discovered tr)) ∖ {[ default "." dirname ]}.
Proof.
  intros Hrun.
  apply GuessDeps_returned in Hrun as (b & deps & err & c & _ & _ & _ & _ & _ & -> & _).
  by rewrite dom_delete_L, compactDeps_dom.
Qed.

Lemma final_dependencies_witness :
  let run := GuessDeps Sample.h_proj 4 None in
  run = Some (Returned (Sample.config_of run), Sample.trace_of run)
  ∧ cfgImports (Sample.config_of run)
    = set_map (D := gset string) (topLevel Sample.h_proj)
        (dom (discovered (Sample.trace_of run))) ∖ {[ "." ]}.
Proof.
  intros run. split; [vm_compute; reflexivity|].
  apply (final_dependencies Sample.h_proj 4 None). vm_compute. reflexivity.
Defined.

Lemma rangeImports_cons
    (rec : gmap string bool → string → gmap string bool * outcome * call)
    (vpath imp : string) (rest : list string) (soFar : gmap string bool) :
  rangeImports rec vpath (imp :: rest) soFar =
  if negb (has soFar imp) then
    let '(soFar1, err, c1) := rec soFar (vpath +:+ "/vendor/" +:+ imp) in
    match err with
    | Nil =>
      let '(soFar', r, cs) := rangeImports rec vpath rest soFar1 in
      (soFar', r, c1 :: cs)
    | Diverge => (soFar1, Diverge, [c1])
    | Err _ =>
      let '(soFar2, err2, c2) := rec soFar1 imp in
      match err2 with
      | Nil =>
        let '(soFar', r, cs) := rangeImports rec vpath rest soFar2 in
        (soFar', r, c1 :: c2 :: cs)
      | _ => (soFar2, err2, [c1; c2])
      end
    end
  else rangeImports rec vpath rest soFar.
Proof. reflexivity. Qed.

Section edge_runs.
Context (h : Host) (b : BuildCtxt) (cwd : string).
Hypothesis context_ok : GetBuildContext h = inl b.
Hypothesis cwd_ok : Getwd h = inl cwd.

(** A package whose imports all fail under the overlay and are ["C"] or
    in the standard library under their plain name: the loop registers
    nothing and returns [nil]. *)
Lemma rangeImports_stdlib_only (fuel : nat) (v : string) (imports : list string) :
  (∀ imp, imp ∈ imports →
     (∃ p e, Import b (v +:+ "/vendor/" +:+ imp) cwd = (p, Some e))
     ∧ (imp = "C" ∨ ∃ p, Import b imp cwd = (p, None) ∧ Goroot p = true)) →
  ∃ cs, rangeImports (λ s n, findDeps h (S fuel) b s n v) v imports ∅ = (∅, Nil, cs).
Proof.
  induction imports as [|imp rest IH]; intros Himps; [by eexists|].
  destruct IH as [cs IH]. { intros imp' ?. apply Himps. by right. }
  destruct (Himps imp) as [(p & e & Hov) Hplain]; [by left|].
  rewrite rangeImports_cons. unfold has. rewrite lookup_empty. cbn [default negb].
  rewrite findDeps_unfold, cwd_ok.
  pose proof (overlay_name_not_C v imp) as ->%String_eqb_false.
  rewrite Hov.
  rewrite findDeps_unfold, cwd_ok.
  destruct (String.eqb_spec imp "C") as [->|HC].
  { rewrite IH. by eexists. }
  destruct Hplain as [?|(p' & -> & ->)]; [done|].
  rewrite IH. by eexists.
Qed.

End edge_runs.

(** X4. A project whose root package is its own top level package and
    imports only the standard library and cgo (none of which is found
    under the vendor overlay) gets a configuration without dependencies:
    the walk returns [nil], the fallback scan does not run, and the name
    is the root's import path. *)
Theorem stdlib_only_project (h : Host) (b : BuildCtxt) (cwd : string) (fuel : nat)
    (dirname : option string) (pkg : Package) :
  GetBuildContext h = inl b → Getwd h = inl cwd →
  default "." dirname ≠ "C" →
  Import b (default "." dirname) cwd = (pkg, None) → Goroot pkg = false →
  topLevel h (ImportPath pkg) = ImportPath pkg →
  (∀ imp, imp ∈ Imports pkg →
     (∃ p e, Import b (ImportPath pkg +:+ "/vendor/" +:+ imp) cwd = (p, Some e))
     ∧ (imp = "C" ∨ ∃ p, Import b imp cwd = (p, None) ∧ Goroot p = true)) →
  ∃ c, GuessDeps h (S (S fuel)) dirname
       = Some (Returned {| cfgName := ImportPath pkg; cfgImports := ∅ |},
               {| discovered := ∅; direct := Some c; fallback := None |}).
Proof.
  intros Hb Hwd HC Himp Hgoroot Htop Himps.
  destruct (rangeImports_stdlib_only h b cwd Hwd fuel (ImportPath pkg) (Imports pkg) Himps)
    as [cs Hloop].
  unfold GuessDeps. rewrite Hb, findDeps_unfold, Hwd.
  apply String_eqb_false in HC as ->. rewrite Himp, Hgoroot. cbv zeta.
  assert (effective_vpath "" pkg = ImportPath pkg) as -> by done.
  assert (register h (ImportPath pkg) pkg ∅ = ∅) as ->.
  { unfold register. rewrite realName_self. unfold topLevel in Htop.
    by rewrite Htop, String.eqb_refl. }
  rewrite Hloop.
  rewrite (guessPackageName_resolved h b _ cwd pkg Hwd Himp).
  rewrite compactDeps_empty, delete_empty, dom_empty_L. by eexists.
Qed.

Lemma stdlib_only_project_witness :
  Imports (Import Sample2.b_std "." "/go/src/example.org/proj").1 = ["fmt"; "C"; "os"]
  ∧ ∃ c, GuessDeps Sample2.h_std 2 None
         = Some (Returned {| cfgName := "example.org/proj"; cfgImports := ∅ |},
                 {| discovered := ∅; direct := Some c; fallback := None |}).
Proof.
  split; [reflexivity|].
  apply (stdlib_only_project Sample2.h_std Sample2.b_std "/go/src/example.org/proj" 0 None
           (Import Sample2.b_std "." "/go/src/example.org/proj").1);
    try reflexivity; [discriminate|].
  intros imp Himp. simpl in Himp.
  rewrite !elem_of_cons in Himp. destruct Himp as [->|[->|[->|Hnil]]].
  - split; [by eexists _, _|]. right. by eexists.
  - split; [by eexists _, _|]. by left.
  - split; [by eexists _, _|]. right. by eexists.
  - by apply elem_of_nil in Hnil.
Defined.

(** X8. When the working directory cannot be determined, the walk fails
    before it resolves anything and [GuessDeps] returns, without error,
    the configuration named ["main"] with no dependencies. *)
Theorem no_working_directory (h : Host) (b : BuildCtxt) (fuel : nat)
    (dirname : option string) (e : error) :
  GetBuildContext h = inl b → Getwd h = inr e → isNoGoError e = false →
  GuessDeps h (S fuel) dirname
    = Some (Returned {| cfgName := "main"; cfgImports := ∅ |},
            {| discovered := ∅;
               direct := Some (Call (default "." dirname) "" None (Err e) []);
               fallback := None |}).
Proof.
  intros Hb Hwd He. unfold GuessDeps. rewrite Hb, findDeps_unfold, Hwd.
  rewrite (guessPackageName_no_cwd h b _ e Hwd).
  destruct e; [done|].
  by rewrite compactDeps_empty, delete_empty, dom_empty_L.
Qed.

Lemma no_working_directory_witness :
  Getwd Sample2.h_nocwd = inr (OtherError "getwd: no such file or directory")
  ∧ GuessDeps Sample2.h_nocwd 1 None
    = Some (Returned {| cfgName := "main"; cfgImports := ∅ |},
            {| discovered := ∅;
               direct := Some (Call "." "" None
                                 (Err (OtherError "getwd: no such file or directory")) []);
               fallback := None |}).
Proof.
  split; [reflexivity|].
  apply (no_working_directory Sample2.h_nocwd Sample.b_small 0 None); reflexivity.
Defined.

(** ** Compaction, continued *)

(** X9. Compaction never yields more entries than it is given. *)
Theorem compactDeps_size (h : Host) (soFar : gmap string bool) :
  size (compactDeps h soFar) ≤ size soFar.
Proof.
  unfold compactDeps.
  apply (map_fold_weak_ind (λ (r m : gmap string bool), size r ≤ size m)).
  - by rewrite !map_size_empty.
  - intros k x m r Hfresh IH. rewrite (map_size_insert_None k x m Hfresh).
    rewrite map_size_insert. destruct (r !! (NormalizeName h k).1); simpl; lia.
Qed.

(** X10. Where [NormalizeName] maps the top level identities of the
    entries to themselves, compacting twice is compacting once. *)
Theorem compactDeps_idempotent (h : Host) (soFar : gmap string bool) :
  (∀ k, k ∈ dom soFar → topLevel h (topLevel h k) = topLevel h k) →
  compactDeps h (compactDeps h soFar) = compactDeps h soFar.
Proof.
  intros Hidem. rewrite (compactDeps_image h (compactDeps h soFar)). 
  rewrite (compactDeps_image h soFar) at 2. f_equal.
  rewrite compactDeps_dom. apply set_eq. intros t. rewrite !elem_of_map. split.
  - intros (t' & -> & (k & -> & Hk)%elem_of_map). exists k. by rewrite Hidem.
  - intros (k & -> & Hk). exists (topLevel h k). rewrite Hidem by done.
    split; [done|]. apply elem_of_map. eauto.
Qed.

Lemma compactDeps_idempotent_witness :
  let soFar : gmap string bool :=
    <["example.org/lib/sub" := true]> (<["example.org/lib" := true]> ∅) in
  compactDeps Sample.h_proj (compactDeps Sample.h_proj soFar) = {[ "example.org/lib" := true ]}
  ∧ compactDeps Sample.h_proj soFar = {[ "example.org/lib" := true ]}.
Proof.
  intros soFar.
  assert (compactDeps Sample.h_proj soFar = {[ "example.org/lib" := true ]}) as Hone
    by (vm_compute; reflexivity).
  split; [|exact Hone]. etransitivity; [|exact Hone].
  apply (compactDeps_idempotent Sample.h_proj soFar).
  intros k. unfold soFar. rewrite !dom_insert_L, dom_empty_L.
  rewrite !elem_of_union, !elem_of_singleton.
  intros [->|[->|[]%not_elem_of_empty]]; reflexivity.
Defined.

(** ** The direct walk, continued *)

(** X11. A package that resolves under the vendor overlay of [v] is
    registered under the name it was imported by, not under its path in
    the vendor directory: after the overlay attempt the guard of the loop
    finds the import name in the discovery set. *)
Theorem vendored_registered_under_import_name (h : Host) (b : BuildCtxt) (fuel : nat)
    (soFar : gmap string bool) (cwd v imp : string) (pkg : Package) :
  Getwd h = inl cwd → v ≠ "" →
  Import b (v +:+ "/vendor/" +:+ imp) cwd = (pkg, None) → Goroot pkg = false →
  ImportPath pkg = v +:+ "/vendor/" +:+ imp →
  topLevel h imp ≠ v →
  has (findDeps h (S fuel) b soFar (v +:+ "/vendor/" +:+ imp) v).1.1 imp = true.
Proof.
  intros Hwd Hv Himp Hgoroot Hpath Htop.
  rewrite findDeps_unfold, Hwd.
  pose proof (overlay_name_not_C v imp) as ->%String_eqb_false.
  rewrite Himp, Hgoroot. cbv zeta.
  assert (effective_vpath v pkg = v) as ->.
  { unfold effective_vpath. by apply String_eqb_false in Hv as ->. }
  assert (register h v pkg soFar !! imp = Some true) as Hreg.
  { unfold register. rewrite (realName_overlay v imp pkg Hpath).
    assert (v ≠ (NormalizeName h imp).1) as ->%String_eqb_false by (intros ->; by apply Htop).
    simpl. apply lookup_insert_eq. }
  pose proof (rangeImports_keeps_true (λ s n, findDeps h fuel b s n v) v (Imports pkg)
                (register h v pkg soFar) imp) as Hkeep.
  destruct (rangeImports _ _ _ _) as [[s' r'] cs']. simpl in *.
  unfold has. rewrite Hkeep; [done| |done].
  intros s n. apply findDeps_keeps_true.
Qed.

Lemma vendored_registered_under_import_name_witness :
  ImportPath (Import Sample.b_proj "example.org/proj/vendor/example.org/lib/sub"
                "/go/src/example.org/proj").1
    = "example.org/proj/vendor/example.org/lib/sub"
  ∧ has (findDeps Sample.h_proj 3 Sample.b_proj ∅
           "example.org/proj/vendor/example.org/lib/sub" "example.org/proj").1.1
        "example.org/lib/sub" = true.
Proof.
  split; [reflexivity|].
  apply (vendored_registered_under_import_name Sample.h_proj Sample.b_proj 2 ∅
           "/go/src/example.org/proj" "example.org/proj" "example.org/lib/sub"
           (Import Sample.b_proj "example.org/proj/vendor/example.org/lib/sub"
              "/go/src/example.org/proj").1);
    try reflexivity; vm_compute; discriminate.
Defined.

Lemma rangeImports_no_error
    (rec : gmap string bool → string → gmap string bool * outcome * call)
    (vpath : string) (imports : list string) :
  (∀ s imp e, imp ∈ imports → (rec s imp).1.2 ≠ Err e) →
  ∀ soFar e, (rangeImports rec vpath imports soFar).1.2 ≠ Err e.
Proof.
  induction imports as [|imp rest IH]; intros Hrec soFar e; [done|].
  assert (∀ soFar, (rangeImports rec vpath rest soFar).1.2 ≠ Err e) as IH'.
  { intros s. apply IH. intros s' imp' e' ?. apply Hrec. by right. }
  rewrite rangeImports_cons. destruct (negb (has soFar imp)); [|apply IH'].
  destruct (rec soFar (vpath +:+ "/vendor/" +:+ imp)) as [[s1 r1] c1].
  destruct r1 as [|e1|]; [| |done].
  - specialize (IH' s1). by destruct (rangeImports rec vpath rest s1) as [[s' r'] cs'].
  - pose proof (Hrec s1 imp) as Hplain.
    destruct (rec s1 imp) as [[s2 r2] c2]. simpl in Hplain.
    destruct r2 as [|e2|]; [| |done].
    + specialize (IH' s2). by destruct (rangeImports rec vpath rest s2) as [[s' r'] cs'].
    + simpl. apply Hplain. by left.
Qed.

(** X12. A failure under the vendor overlay is never what the walk
    returns. Let [R] hold of names that are ["C"] or resolve, under their
    plain form, to a package that is in the standard library or whose
    imports are in [R] again. Then the walk from a name in [R] does not
    return an error, however the overlay attempts end. *)
Theorem overlay_failure_not_fatal (h : Host) (b : BuildCtxt) (cwd : string)
    (R : string → Prop) (fuel : nat) (soFar : gmap string bool) (name vpath : string)
    (e : error) :
  Getwd h = inl cwd →
  (∀ n, R n →
     n = "C" ∨ ∃ pkg, Import b n cwd = (pkg, None)
                      ∧ (Goroot pkg = true ∨ ∀ imp, imp ∈ Imports pkg → R imp)) →
  R name →
  (findDeps h fuel b soFar name vpath).1.2 ≠ Err e.
Proof.
  intros Hwd Hclosed. revert soFar name vpath e.
  induction fuel as [|fuel IH]; intros soFar name vpath e HR; [done|].
  rewrite findDeps_unfold, Hwd.
  destruct (String.eqb_spec name "C") as [|HC]; [done|].
  destruct (Hclosed name HR) as [?|(pkg & -> & Hpkg)]; [done|].
  destruct (Goroot pkg) eqn:Hgoroot; [done|].
  destruct Hpkg as [?|Himps]; [done|]. cbv zeta.
  pose proof (rangeImports_no_error
                (λ s n, findDeps h fuel b s n (effective_vpath vpath pkg))
                (effective_vpath vpath pkg) (Imports pkg)) as Hloop.
  specialize (Hloop (λ s imp e' Hin, IH s imp _ e' (Himps imp Hin))
                (register h (effective_vpath vpath pkg) pkg soFar) e).
  by destruct (rangeImports _ _ _ _) as [[s' r'] cs'].
Qed.

Lemma overlay_failure_not_fatal_witness :
  (Import Sample.b_small "example.org/proj/vendor/example.org/lib"
     "/go/src/example.org/proj").2 = Some (OtherError "cannot find package")
  ∧ (findDeps Sample.h_small 3 Sample.b_small ∅ "." "").1.2 = Nil
  ∧ (findDeps Sample.h_small 3 Sample.b_small ∅ "." "").1.2
    ≠ Err (OtherError "cannot find package").
Proof.
  split; [reflexivity|]. split; [vm_compute; reflexivity|].
  apply (overlay_failure_not_fatal Sample.h_small Sample.b_small "/go/src/example.org/proj"
           (λ n, n = "." ∨ n = "example.org/lib")); [reflexivity| |by left].
  intros n [->| ->]; right.
  - eexists. split; [reflexivity|]. right. intros imp Himp. simpl in Himp.
    apply list_elem_of_singleton in Himp as ->. by right.
  - eexists. split; [reflexivity|]. right. intros imp Himp. simpl in Himp.
    by apply elem_of_nil in Himp.
Defined.

(** X13. When the base directory is a package below the top level of its
    project (its import path is not its own top level identity), the root
    registers itself and the project's top level package is reported as a
    dependency of the project, under either strategy. *)
Theorem subdirectory_root_reports_own_project (h : Host) (b : BuildCtxt) (cwd : string)
    (fuel : nat) (dirname : option string) (pkg : Package) (config : Config) (tr : Trace) :
  GetBuildContext h = inl b → Getwd h = inl cwd →
  default "." dirname ≠ "C" →
  Import b (default "." dirname) cwd = (pkg, None) → Goroot pkg = false →
  topLevel h (ImportPath pkg) ≠ ImportPath pkg →
  topLevel h (ImportPath pkg) ≠ default "." dirname →
  GuessDeps h fuel dirname = Some (Returned config, tr) →
  cfgName config = ImportPath pkg
  ∧ ImportPath pkg ∈ dom (discovered tr)
  ∧ topLevel h (ImportPath pkg) ∈ cfgImports config.
Proof.
  intros Hb Hwd HC Himp Hgoroot Htop Hbase Hrun.
  apply GuessDeps_returned in Hrun
    as (b' & deps & err & c & Hb' & Hfd & Herr & _ & Hcfg & Himports & Hfound).
  simpl in *. rewrite Hb in Hb'. injection Hb' as <-.
  set (base := default "." dirname) in *.
  assert (deps !! ImportPath pkg = Some true) as Hdeps.
  { destruct fuel as [|fuel]. { simpl in Hfd. by injection Hfd as _ <- _. }
    rewrite findDeps_unfold, Hwd in Hfd.
    apply String_eqb_false in HC. rewrite HC, Himp, Hgoroot in Hfd. cbv zeta in Hfd.
    assert (effective_vpath "" pkg = ImportPath pkg) as Heff by done.
    rewrite Heff in Hfd.
    pose proof (rangeImports_keeps_true (λ s n, findDeps h fuel b s n (ImportPath pkg))
                  (ImportPath pkg) (Imports pkg)
                  (register h (ImportPath pkg) pkg ∅) (ImportPath pkg)) as Hkeep.
    destruct (rangeImports _ _ _ _) as [[s' r'] cs']. injection Hfd as <- _ _.
    apply Hkeep; [intros s n; apply findDeps_keeps_true|].
    unfold register. rewrite realName_self.
    assert (ImportPath pkg ≠ (NormalizeName h (ImportPath pkg)).1) as ->%String_eqb_false
      by (intros Heq; by apply Htop).
    simpl. apply lookup_insert_eq. }
  assert (discovered tr !! ImportPath pkg = Some true) as Hall.
  { destruct Hfound as [(d & _ & -> & _)|(_ & -> & _)]; [|done].
    apply (scanTree_preserves h b base _ (λ s, s !! ImportPath pkg = Some true)); [|done].
    intros imp s Hs _ _ _ _.
    destruct (decide (imp = ImportPath pkg)) as [->|Hne];
      [apply lookup_insert_eq|by rewrite lookup_insert_ne]. }
  split; [rewrite Hcfg; by eapply guessPackageName_resolved|].
  split; [by apply elem_of_dom|].
  rewrite Himports. apply elem_of_dom. rewrite lookup_delete_ne by done.
  exists true. apply compactDeps_lookup. exists (ImportPath pkg).
  split; [by apply elem_of_dom|done].
Qed.

Lemma subdirectory_root_reports_own_project_witness :
  let run := GuessDeps Sample2.h_tool 2 None in
  run = Some (Returned {| cfgName := "example.org/proj/cmd/tool";
                          cfgImports := {[ "example.org/proj" ]} |}, Sample.trace_of run)
  ∧ cfgName (Sample.config_of run) = "example.org/proj/cmd/tool"
  ∧ "example.org/proj/cmd/tool" ∈ dom (discovered (Sample.trace_of run))
  ∧ "example.org/proj" ∈ cfgImports (Sample.config_of run).
Proof.
  intros run. split; [vm_compute; reflexivity|].
  apply (subdirectory_root_reports_own_project Sample2.h_tool Sample2.b_tool
           "/go/src/example.org/proj" 2 None
           (Import Sample2.b_tool "." "/go/src/example.org/proj").1);
    try reflexivity; vm_compute; discriminate.
Defined.


